(* ===== verification/_CoqProject ===== *)
-Q . S2P
Prelude.v
JsString.v
SplitRef.v
JsNumber.v
NumberToString.v
Services.v
Handler.v
HandlerSpec.v
RequestMachine.v
Factory.v
