(* ===== verification/Prelude.v ===== *)
(** * A verification development for [src/handler.js]

    The program is an AWS Lambda handler (class [Handler], file
    [src/handler.js]) that labels an image and translates the labels to
    Portuguese.  One request runs four steps in sequence, inside a single
    [try]/[catch]:

    - [getImageBuffer(imageUrl)]: an axios GET of the image with
      [responseType: 'arraybuffer'], re-wrapped by
      [Buffer.from(response.data, 'base64')];
    - [detectImageLabels(buffer)]: a Rekognition [detectLabels] call, the
      labels filtered on [Confidence > 80], their names joined by [' and '];
    - [translateText(text)]: an AWS Translate call from ['en'] to ['pt'],
      whose [TranslatedText] is split on [' e '];
    - [formatTranslatedText({texts, workingItems})]: a [for ... in] loop over
      the translated pieces that reads [workingItems[i].Confidence], prints it
      with [toFixed(2)] and joins the lines with ['\n'];

    and [main(event)] composes them, answering status 200 with
    ["A imagem tem \n" + report], or, for any exception, logging it and
    answering status 500 with ["Internal server error!"].

    ** Files (in dependency order)

    - [Prelude.v] (this file): completion records (normal or throw), the
      [JS] effect monad in which the handler's async methods are written
      (explicit state passing of the trace of external interactions, plus
      exceptions; [js_await] for an awaited call, [js_try] for
      [try]/[catch], [js_emit] for [console.log]), its notation in
      [js_scope], the [Frame] invariant (a computation only appends to the
      trace, independently of what came before) with the hint database
      [jsmodel] that proves it for composed computations.
    - [JsString.v]: JavaScript strings as lists of UTF-16 code units
      ([list N]) and the built-ins the handler calls on them, on their
      ECMAScript algorithms: [StringIndexOf] ([string_index_of]), the loop
      of [String.prototype.split] ([split_loop], with fuel) and the method
      ([split], with its limit, [2^32 - 1] when absent, and [js_split]),
      [Array.prototype.join] ([join_loop], [array_join]); the exceptions
      ([js_error]).  Theorems: the loop exits by itself within its fuel;
      joining the pieces gives the string back; splitting a join of
      separator-free pieces gives the pieces back; a split is never empty.
    - [SplitRef.v]: a reference split around a non-empty separator
      ([split_ref], by well-founded recursion on the length with
      Equations) and the theorem that the ECMAScript loop computes it when
      the limit exceeds the number of pieces.
    - [JsNumber.v]: JavaScript numbers as IEEE-754 binary64 values
      ([SpecFloat.spec_float], valid for [prec = 53], [emax = 1024]),
      literals ([num_lit], [dec_lit]), [x > y] ([js_gt]) and
      [Number.prototype.toFixed] ([toFixed]: the [RangeError], the
      non-finite strings, the sign, the integer [n] closest to [x * 10^f]
      ([round_scaled], ties to the larger), its digits padded and cut
      around ['.'] ([fixed_point])).  Theorems: [n] is the closest integer
      with ties to the larger; the output has exactly [f] digits after the
      point and reads back as [n]; on valid values the IEEE comparison is
      the order of the exact values, so [x > 80] holds exactly for
      [+Infinity] and the finite values above 80; a value in [0, 100]
      prints with [toFixed(2)] in four to six code units.
    - [NumberToString.v]: [Number::toString], which [toFixed] calls for
      magnitudes of at least [10^21]: step 5 (the fewest digits [s] and
      the exponent [n] whose value rounds back to the number, the closest
      and then the even [s]) as a search over the digit count [k], with
      two candidates per [k] and per exponent next to the number's own,
      ended by the exact decimal expansion; steps 6 to 10 ([layout]).
      Rounding a rational to binary64 ([round_Q]) goes through the
      rounding kernel of [SpecFloat].  A reader of the printed literals
      ([StringToNumber]) states the round trip.  Theorems: the kernel
      returns an exactly representable value unchanged; step 5 returns
      [k] digits that denote the number; reading back what is printed
      gives the number for every binary64 value but [-0].  Examples
      evaluate [Number::toString] and [toFixed] above [10^21] on known
      values.
    - [Services.v]: the data the handler exchanges with its collaborators
      (the Rekognition, Translate and axios request and response shapes, a
      property that may be [undefined] as an [option]), the Lambda event
      and response, the record [HandlerDeps] the constructor stores, and
      the trace entries [Call].
    - [Handler.v]: the class [Handler] of [src/handler.js]:
      [getImageBuffer] (with [Buffer_from]), [detectImageLabels] (with the
      filter [confident]), [translateText], [formatTranslatedText] (with
      its loop [format_loop]) and [main] (with its [try] block
      [main_body]), in a section whose variables are the collaborators.
      Theorems: [main] never throws and answers only the two responses;
      [formatTranslatedText] succeeds exactly when there are no more pieces
      than labels; the filter is the exact comparison with 80; a report
      line for a confidence in [0, 100] is 21 to 23 code units longer than
      its translated name.
    - [HandlerSpec.v]: the contract of a request ([spec_report], in the
      option monad: each step, the labels above 80, the pieces of the
      translation, the report when there are no more pieces than labels)
      and the refinement theorem [main_refines_spec]; the runs of [main]:
      the success path and its three calls, the failure when the
      translation has more pieces than labels, the failure whenever no
      label is above 80, a rejected fetch, a rejected detection (Translate
      never called), a rejected translation, a missing query string, a
      missing [imageUrl]; the log of every request (one [console.log] of
      the thrown error exactly on the 500 response, none on success); the
      alignment of each label with its own translation when Translate
      translates piece by piece.  Examples run the scenarios of the design
      on fixtures.
    - [RequestMachine.v]: the request as the state machine of section 4.5
      of the design: phases [Received], [Fetched], [Detected],
      [Translated], [Responded]; the step relation [request_step], each
      step labelled with the calls it makes, stated on the collaborators'
      answers; paths [reach].  Theorem: every run of [main] is a path from
      [Received] to its response with its trace as labels (simulation).
    - [Factory.v]: lines 93 to 105 and the constructor: the two AWS
      clients as records of the operation the handler calls on each
      ([RekognitionClient], [TranslateClient]), [new_Handler], the method
      [main] with an explicit receiver [this] ([main_on], [undefined] when
      unbound), [Function.prototype.bind] ([Function_bind]) and the export
      [module_exports_main].  Theorem: the exported function answers what
      the contract prescribes for the handler built on the two clients.

    ** Modelling choices

    - Every collaborator is a section variable: [deps] (the constructor's
      clients), [get] (axios) and [Number::toString] (used by [toFixed]
      only for magnitudes of at least [10^21]); the theorems hold for every
      behaviour of them.  A call's promise settles with a [completion].
    - Loops: [split_loop] runs on fuel [S (length s)]; each iteration
      moves past a non-empty separator, so the fuel is never the reason it
      stops ([split_loop_terminates]).  The other loops are structural.
    - Numbers are binary64 with their exact values; a comparison or a
      [toFixed] on a literal evaluates by [vm_compute].
    - [console.log('Error****', error.stack)] records the error value
      itself; the stack text is derived from it.
    - The receiver [this] of the handler's methods is the record of
      collaborators in [Handler.v]; [Factory.v] makes it explicit only for
      [main], the one method called from outside the class.
    - [Handler.v] keeps [Number::toString] a section variable; its
      theorems therefore hold for [NumberToString.Number_toString], which
      the examples of [NumberToString.v] plug into [toFixed].
    - [round_Q] is proved to return an exactly representable value
      unchanged, which is what the round trip needs; that it rounds every
      other rational to the nearest binary64 is the design of the
      [SpecFloat] kernel it calls, not a theorem here.
    - [split_ref] is defined by well-founded recursion with Equations;
      the equations Equations derives for it rely on functional
      extensionality, the one axiom of the development.

    ** Plan of the development (across sittings)

    1. Done: the handler's pipeline and its error boundary; the built-ins
       it relies on; the contract of a request and the refinement theorem;
       the alignment of translations with labels; the exact meaning of
       the filter.
    2. Done: the request as the state machine of section 4.5 of the
       design and the simulation of [main] by it.
    3. Done: the bound on the length of a report line for confidences in
       [0, 100] ([toFixed(2)] prints four to six code units, checked by
       evaluation on every integer up to [10000]).
    4. Done: the factory and the export with [bind]; the equivalence of
       [split] with a reference split.
    5. Done: [Number::toString] and its round trip, so that [toFixed] is
       modelled on every input.
    6. Done: every failure path of [main] with its trace (fetch,
       detection and translation rejected) and the log of every request.
    7. Later: the minimality of [k] in step 5 (it needs the monotonicity
       of rounding); [Buffer.from] on a string (base64 decoding),
       unreachable with [responseType: 'arraybuffer'] but named by the
       design.

    ** What is not modelled

    The AWS SDK clients and axios themselves are collaborators, code of
    libraries the sources only call: the handler sees them only through
    the records of operations of [Services.v] and [Factory.v], which any
    function may inhabit, so the theorems hold for every behaviour of
    them.  [require] (lines 3 and 94) is module loading.  [StringToNumber]
    is read only on the literals [Number::toString] can print (no white
    space, no hexadecimal, octal or binary forms): the program never
    parses a number; the reader only states the round trip. *)

From stdpp Require Import base list.

Declare Scope js_scope.
Delimit Scope js_scope with js.

Create HintDb jsmodel discriminated.
Create Rewrite HintDb jsrw.

(** ** Completion records

    The outcome of evaluating a JavaScript expression, or of awaiting a
    promise: a normal value or a thrown (rejected) exception. *)
Inductive completion (E A : Type) : Type :=
| Normal (v : A)
| Throw (e : E).
Arguments Normal {E A} v.
Arguments Throw {E A} e.

(** ** The effect monad of the handler's async methods

    A computation receives the trace of external interactions performed
    so far and returns its completion together with the extended trace. *)
Section Effects.
Context {E Ev : Type}.

Definition JS (A : Type) : Type := list Ev -> completion E A * list Ev.

Definition js_ret {A} (x : A) : JS A := fun tr => (Normal x, tr).

Definition js_throw {A} (e : E) : JS A := fun tr => (Throw e, tr).

Definition js_bind {A B} (m : JS A) (k : A -> JS B) : JS B :=
  fun tr =>
    match m tr with
    | (Normal x, tr') => k x tr'
    | (Throw e, tr') => (Throw e, tr')
    end.

(** [await] of an external call: the call is recorded in the trace, then
    the promise settles with [p]. *)
Definition js_await {A} (ev : Ev) (p : completion E A) : JS A :=
  fun tr => (p, tr ++ [ev]).

(** A synchronous side effect with no result ([console.log]). *)
Definition js_emit (ev : Ev) : JS unit := fun tr => (Normal tt, tr ++ [ev]).

(** A synchronous expression that may throw. *)
Definition js_lift {A} (c : completion E A) : JS A := fun tr => (c, tr).

(** [try { m } catch (e) { h e }]. *)
Definition js_try {A} (m : JS A) (h : E -> JS A) : JS A :=
  fun tr =>
    match m tr with
    | (Throw e, tr') => h e tr'
    | r => r
    end.

(** Running a computation from the empty trace. *)
Definition js_run {A} (m : JS A) : completion E A * list Ev := m [].

(** ** The frame invariant: a computation only appends to the trace,
    and what it appends and returns does not depend on the trace
    before it. *)
Definition Frame {A} (m : JS A) : Prop :=
  forall tr, m tr = (fst (m []), tr ++ snd (m [])).

Lemma frame_ret {A} (x : A) : Frame (js_ret x).
Proof. intros tr. unfold js_ret. simpl. by rewrite app_nil_r. Qed.

Lemma frame_throw {A} (e : E) : Frame (@js_throw A e).
Proof. intros tr. unfold js_throw. simpl. by rewrite app_nil_r. Qed.

Lemma frame_await {A} ev (p : completion E A) : Frame (js_await ev p).
Proof. intros tr. reflexivity. Qed.

Lemma frame_emit ev : Frame (js_emit ev).
Proof. intros tr. reflexivity. Qed.

Lemma frame_lift {A} (c : completion E A) : Frame (js_lift c).
Proof. intros tr. unfold js_lift. simpl. by rewrite app_nil_r. Qed.

Lemma frame_bind {A B} (m : JS A) (k : A -> JS B) :
  Frame m -> (forall x, Frame (k x)) -> Frame (js_bind m k).
Proof.
  intros Hm Hk tr. unfold js_bind. rewrite (Hm tr), (Hm []).
  destruct (m []) as [[x|e] d]; simpl.
  - rewrite (Hk x (tr ++ d)), (Hk x d). simpl. by rewrite app_assoc.
  - done.
Qed.

Lemma frame_try {A} (m : JS A) (h : E -> JS A) :
  Frame m -> (forall e, Frame (h e)) -> Frame (js_try m h).
Proof.
  intros Hm Hh tr. unfold js_try. rewrite (Hm tr), (Hm []).
  destruct (m []) as [[x|e] d]; simpl.
  - done.
  - rewrite (Hh e (tr ++ d)), (Hh e d). simpl. by rewrite app_assoc.
Qed.

(** Running a framed computation after a prefix of the trace. *)
Lemma frame_run {A} (m : JS A) tr :
  Frame m -> m tr = (fst (js_run m), tr ++ snd (js_run m)).
Proof. intros Hm. apply Hm. Qed.
End Effects.

Arguments JS : clear implicits.

#[export] Hint Resolve frame_ret frame_throw frame_await frame_emit frame_lift
  : jsmodel.
#[export] Hint Extern 2 (Frame (js_bind _ _)) =>
  apply frame_bind; [|intros ?] : jsmodel.
#[export] Hint Extern 2 (Frame (js_try _ _)) =>
  apply frame_try; [|intros ?] : jsmodel.

Notation "x <- c1 ;; c2" := (js_bind c1 (fun x => c2))
  (at level 100, c1 at next level, right associativity) : js_scope.
Notation "c1 ;;; c2" := (js_bind c1 (fun _ => c2))
  (at level 100, right associativity) : js_scope.

#[export] Hint Rewrite @length_app @length_map @app_nil_r : jsrw.

(** Unfold the monad's operations and reduce. *)
Ltac js_unfold :=
  cbv [js_bind js_ret js_throw js_await js_emit js_lift js_try js_run] in *; simpl in *.

#[export] Hint Extern 3 (Frame (match ?x with _ => _ end)) => destruct x : jsmodel.
#[export] Hint Extern 3 (Frame (let _ := _ in _)) => cbv zeta : jsmodel.
