(* ===== verification/JsString.v ===== *)
(** * JavaScript strings and the string built-ins of [src/handler.js]

    A JavaScript string is a sequence of UTF-16 code units: here a
    [list N].  The handler calls two built-ins on strings:
    [Array.prototype.join] (line 23, [.join(' and ')], and line 60,
    [.join('\n')]) and [String.prototype.split] (line 47, [.split(' e ')]).
    Both are modelled on their ECMAScript algorithms, generically over any
    type of code units with decidable equality:
    - [string_index_of] is the abstract operation [StringIndexOf];
    - [split_loop] is the loop of steps 15 to 17 of [split], with fuel,
      and [split] the whole method with its limit [lim] (for an absent
      [limit] argument, [2^32 - 1]);
    - [array_join] is the loop of [Array.prototype.join].
    The theorems: [split] never returns an empty array, [join] after
    [split] gives the string back, and [split] after [join] gives the
    pieces back when no piece contains (or ends in a prefix of) the
    separator. *)

From stdpp Require Import base list.
From Stdlib Require Ascii String.
Export String.StringSyntax.
From S2P Require Import Prelude.

Abbreviation code_unit := N.
Abbreviation jsstring := (list N).

(** An ASCII literal as its UTF-16 code units. *)
Definition lit (s : String.string) : jsstring :=
  List.map Ascii.N_of_ascii (String.list_ascii_of_string s).
Arguments lit s%_string_scope.

(** The line feed, ['\n']. *)
Definition LF : code_unit := 10%N.

(** [limit] undefined: [lim = 2^32 - 1] (step 5 of [split]). *)
Definition max_uint32 : N := 4294967295%N.

Section Builtins.
Context {A : Type} `{EqDecision A}.

(** [is_prefix p t]: [t] starts with [p]. *)
Fixpoint is_prefix (p t : list A) : bool :=
  match p, t with
  | [], _ => true
  | x :: p', y :: t' => bool_decide (x = y) && is_prefix p' t'
  | _ :: _, [] => false
  end.

(** The first position at which [sep] occurs in [t]. *)
Fixpoint index_of (sep t : list A) : option nat :=
  if is_prefix sep t then Some 0
  else match t with
       | [] => None
       | _ :: t' => S <$> index_of sep t'
       end.

(** [StringIndexOf(string, searchValue, fromIndex)]; [-1] is [None]. *)
Definition string_index_of (s sep : list A) (from : nat) : option nat :=
  if decide (sep = []) then
    if decide (from <= length s) then Some from else None
  else (fun k => from + k) <$> index_of sep (drop from s).

(** The substring of [s] from [i] to [j]. *)
Definition substring (i j : nat) (s : list A) : list A :=
  take (j - i) (drop i s).

(** Steps 13 to 18 of [String.prototype.split]:
    [j = StringIndexOf(S, R, i)]; while [j <> -1]: push the substring
    from [i] to [j], stop if [lim] substrings were pushed, set
    [i = j + separatorLength]; finally push the substring from [i]. *)
Fixpoint split_loop (fuel : nat) (s sep : list A) (lim : N) (i : nat)
    (substrings : list (list A)) : list (list A) :=
  match fuel with
  | O => substrings ++ [drop i s]
  | S fuel' =>
      match string_index_of s sep i with
      | None => substrings ++ [drop i s]
      | Some j =>
          let substrings' := substrings ++ [substring i j s] in
          if decide (N.of_nat (length substrings') = lim) then substrings'
          else split_loop fuel' s sep lim (j + length sep) substrings'
      end
  end.

(** [S.split(R, limit)] with [lim = ToUint32(limit)]: an empty limit
    gives no piece, an empty separator the code units of the first [lim]
    code units, an empty string one empty piece, and otherwise the loop,
    given one iteration per code unit and one more. *)
Definition split (s sep : list A) (lim : N) : list (list A) :=
  if decide (lim = 0%N) then []
  else if decide (sep = []) then List.map (fun c => [c]) (take (N.to_nat lim) s)
  else if decide (s = []) then [s]
  else split_loop (S (length s)) s sep lim 0 [].

(** [Array.prototype.join(sep)] on an array of strings: [R] starts empty;
    for each element, the separator is appended first unless it is the
    first element, then the element. *)
Fixpoint join_loop (sep : list A) (k : nat) (xs : list (list A)) (R : list A)
    : list A :=
  match xs with
  | [] => R
  | x :: xs' =>
      join_loop sep (S k) xs' (R ++ (if decide (k = 0) then [] else sep) ++ x)
  end.

Definition array_join (sep : list A) (xs : list (list A)) : list A :=
  join_loop sep 0 xs [].
End Builtins.

(** [s.split(sep)] with no [limit] argument. *)
Definition js_split (s sep : jsstring) : list jsstring := split s sep max_uint32.

(** ** Occurrences of a separator *)
Section Occurrences.
Context {A : Type} `{EqDecision A}.
Implicit Types (sep t x r : list A) (xs : list (list A)).

Lemma is_prefix_correct sep t : is_prefix sep t = true <-> sep `prefix_of` t.
Proof.
  revert t. induction sep as [|a sep IH]; intros [|b t]; simpl.
  - split; [intros _; apply prefix_nil | done].
  - split; [intros _; apply prefix_nil | done].
  - split; [done | intros [r Hr]; discriminate].
  - rewrite andb_true_iff, bool_decide_eq_true, IH. split.
    + intros [-> H]. by apply prefix_cons.
    + intros H. apply prefix_cons_inv_1 in H as Hab. subst b.
      split; [done | by apply prefix_cons_inv_2 in H].
Qed.

Lemma is_prefix_app sep t r :
  is_prefix sep t = true -> is_prefix sep (t ++ r) = true.
Proof.
  rewrite !is_prefix_correct. intros H. by apply prefix_app_r.
Qed.

(** Past the length of the separator, what follows does not matter. *)
Lemma is_prefix_app_long sep t r :
  length sep <= length t -> is_prefix sep (t ++ r) = is_prefix sep t.
Proof.
  revert t. induction sep as [|a sep IH]; intros [|b t] Hlen; simpl in *;
    [done | done | lia |].
  rewrite IH by lia. done.
Qed.

Lemma index_of_found sep t k :
  index_of sep t = Some k -> sep `prefix_of` drop k t /\ k + length sep <= length t.
Proof.
  revert k. induction t as [|b t IH]; intros k; simpl.
  - destruct (is_prefix sep []) eqn:Hp; intros H; simplify_eq.
    apply is_prefix_correct in Hp. apply prefix_nil_inv in Hp as ->.
    split; [apply prefix_nil | simpl; lia].
  - destruct (is_prefix sep (b :: t)) eqn:Hp; intros H.
    + simplify_eq. apply is_prefix_correct in Hp. split; [done|].
      apply prefix_length in Hp. simpl in *. lia.
    + destruct (index_of sep t) as [k'|] eqn:Hk; simplify_eq/=.
      destruct (IH k' eq_refl). split; [done | lia].
Qed.

Lemma index_of_first sep t k k' :
  index_of sep t = Some k -> k' < k -> is_prefix sep (drop k' t) = false.
Proof.
  revert k k'. induction t as [|b t IH]; intros k k'; simpl.
  - destruct (is_prefix sep []) eqn:Hp; intros H; simplify_eq. lia.
  - destruct (is_prefix sep (b :: t)) eqn:Hp; intros H Hlt; simplify_eq; [lia|].
    destruct (index_of sep t) as [k0|] eqn:Hk; simplify_eq/=.
    destruct k' as [|k']; [done|]. simpl. apply (IH k0); [done | lia].
Qed.

Lemma index_of_none sep t k :
  index_of sep t = None -> is_prefix sep (drop k t) = false.
Proof.
  revert k. induction t as [|b t IH]; intros k; simpl.
  - destruct (is_prefix sep []) eqn:Hp; intros H; simplify_eq.
    by rewrite drop_nil.
  - destruct (is_prefix sep (b :: t)) eqn:Hp; intros H; [done|].
    destruct (index_of sep t) eqn:Hk; simplify_eq/=.
    destruct k as [|k]; [done|]. simpl. by apply IH.
Qed.

(** An occurrence stays the first one when text is appended. *)
Lemma index_of_app sep t r k :
  index_of sep t = Some k -> index_of sep (t ++ r) = Some k.
Proof.
  revert k. induction t as [|b t IH]; intros k H.
  - simpl in H. destruct (is_prefix sep []) eqn:Hp; simplify_eq.
    pose proof (is_prefix_app sep [] r Hp) as Hr. simpl in Hr.
    destruct r; simpl in *; by rewrite Hr.
  - pose proof (index_of_found _ _ _ H) as [_ Hlen].
    simpl in H |- *. destruct (is_prefix sep (b :: t)) eqn:Hp.
    + simplify_eq. pose proof (is_prefix_app sep (b :: t) r Hp) as Hr.
      simpl in Hr. by rewrite Hr.
    + destruct (index_of sep t) as [k'|] eqn:Hk; simplify_eq/=.
      rewrite (IH k' eq_refl).
      assert (is_prefix sep ((b :: t) ++ r) = false) as Hr
        by (rewrite is_prefix_app_long; [done | simpl in *; lia]).
      simpl in Hr. by rewrite Hr.
Qed.
End Occurrences.

(** ** Separator-free pieces and [Array.prototype.join] *)
Section JoinLemmas.
Context {A : Type} `{EqDecision A}.
Implicit Types (sep t x r : list A) (xs : list (list A)).

(** A piece [x] is separator-free when, in [x ++ sep], the first
    occurrence of [sep] is the appended one: [x] contains no [sep], and
    no suffix of [x] starts an occurrence that [sep] completes. *)
Definition sep_free sep x : Prop := index_of sep (x ++ sep) = Some (length x).

#[global] Instance sep_free_dec sep x : Decision (sep_free sep x).
Proof. unfold sep_free. apply _. Defined.

Lemma sep_free_none sep x :
  sep <> [] -> sep_free sep x -> index_of sep x = None.
Proof.
  intros Hne Hf. destruct (index_of sep x) as [k|] eqn:Hk; [|done].
  destruct (index_of_found _ _ _ Hk) as [_ Hlen].
  apply (index_of_app _ _ sep) in Hk. unfold sep_free in Hf.
  rewrite Hf in Hk. simplify_eq. destruct sep; simpl in *; [done | lia].
Qed.

Lemma sep_free_app sep x r :
  sep_free sep x -> index_of sep (x ++ sep ++ r) = Some (length x).
Proof. intros Hf. rewrite app_assoc. by apply index_of_app. Qed.

Lemma join_loop_acc sep k xs R :
  join_loop sep k xs R = R ++ join_loop sep k xs [].
Proof.
  revert k R. induction xs as [|x xs IH]; intros k R; simpl.
  - by rewrite app_nil_r.
  - rewrite (IH (S k) (R ++ _)), (IH (S k) (_ ++ x)). by rewrite !app_assoc.
Qed.

(** After the first element, every element is preceded by [sep]. *)
Lemma join_loop_later sep k xs :
  join_loop sep (S k) xs [] = concat (List.map (app sep) xs).
Proof.
  revert k. induction xs as [|y xs IH]; intros k; simpl; [done|].
  rewrite join_loop_acc, IH. repeat case_decide; simpl; done || lia.
Qed.

Lemma array_join_nil sep : array_join sep [] = [].
Proof. done. Qed.

Lemma array_join_cons sep x xs :
  array_join sep (x :: xs) = x ++ concat (List.map (app sep) xs).
Proof. unfold array_join. simpl. by rewrite join_loop_acc, join_loop_later. Qed.

Lemma array_join_single sep x : array_join sep [x] = x.
Proof. rewrite array_join_cons. simpl. apply app_nil_r. Qed.

Lemma array_join_cons2 sep x y xs :
  array_join sep (x :: y :: xs) = x ++ sep ++ array_join sep (y :: xs).
Proof. rewrite !array_join_cons. simpl. by rewrite !app_assoc. Qed.

(** Gluing the last two pieces back with the separator. *)
Lemma array_join_glue sep xs a b :
  array_join sep (xs ++ [a; b]) = array_join sep (xs ++ [a ++ sep ++ b]).
Proof.
  destruct xs as [|x xs]; simpl.
  - rewrite array_join_cons2, !array_join_single. done.
  - rewrite !array_join_cons, !map_app, !concat_app. simpl.
    by rewrite !app_nil_r, !app_assoc.
Qed.

(** A joined string is at least as long as its separators. *)
Lemma array_join_length sep x xs :
  length xs * length sep <= length (array_join sep (x :: xs)).
Proof.
  rewrite array_join_cons, length_app.
  induction xs as [|y xs IH]; simpl; [lia|].
  rewrite !length_app. lia.
Qed.

Lemma array_join_empty sep xs :
  sep <> [] -> xs <> [] -> array_join sep xs = [] -> xs = [[]].
Proof.
  intros Hsep Hxs. destruct xs as [|x [|y xs]]; [done| |].
  - rewrite array_join_single. by intros ->.
  - rewrite array_join_cons2. intros H.
    apply app_eq_nil in H as [_ H]. apply app_eq_nil in H as [H _]. done.
Qed.
End JoinLemmas.

(** ** The [split] loop *)
Section SplitLemmas.
Context {A : Type} `{EqDecision A}.
Implicit Types (s sep t x r : list A) (xs acc : list (list A)).

Lemma string_index_of_nonempty s sep i :
  sep <> [] -> string_index_of s sep i = (fun k => i + k) <$> index_of sep (drop i s).
Proof. intros Hne. unfold string_index_of. by case_decide. Qed.

(** An occurrence found from [i] cuts the rest of the string into the
    substring before it, the separator, and the text after it. *)
Lemma string_index_of_cut s sep i j :
  sep <> [] -> string_index_of s sep i = Some j ->
  i <= j /\ drop i s = substring i j s ++ sep ++ drop (j + length sep) s.
Proof.
  intros Hne. rewrite string_index_of_nonempty by done.
  destruct (index_of sep (drop i s)) as [k|] eqn:Hk; intros H; simplify_eq/=.
  destruct (index_of_found _ _ _ Hk) as [[r Hr] _].
  split; [lia|]. unfold substring.
  replace (i + k - i) with k by lia.
  rewrite <- Nat.add_assoc, <- !drop_drop, Hr, drop_app_length.
  rewrite <- Hr. symmetry. apply take_drop.
Qed.

Lemma split_loop_nonempty fuel s sep lim i acc :
  split_loop fuel s sep lim i acc <> [].
Proof.
  revert i acc. induction fuel as [|fuel IH]; intros i acc; simpl.
  - intros Hnil. by apply app_eq_nil in Hnil as [_ ?].
  - destruct (string_index_of s sep i) as [j|].
    + case_decide; [|apply IH]. intros Hnil. by apply app_eq_nil in Hnil as [_ ?].
    + intros Hnil. by apply app_eq_nil in Hnil as [_ ?].
Qed.

(** Joining what the loop returns gives back the part of the string it
    was given, as long as the limit did not cut the result short. *)
Lemma split_loop_join fuel s sep lim i acc :
  sep <> [] ->
  N.of_nat (length (split_loop fuel s sep lim i acc)) <> lim ->
  array_join sep (split_loop fuel s sep lim i acc) = array_join sep (acc ++ [drop i s]).
Proof.
  intros Hne. revert i acc. induction fuel as [|fuel IH]; intros i acc; simpl; [done|].
  destruct (string_index_of s sep i) as [j|] eqn:Hj; [|done].
  destruct (string_index_of_cut _ _ _ _ Hne Hj) as [_ Hcut].
  case_decide as Hlim; [done|]. intros Hlen.
  rewrite IH by done. rewrite <- app_assoc. simpl.
  rewrite array_join_glue, Hcut. done.
Qed.

(** On a string made of separator-free pieces joined by [sep], each
    iteration of the loop finds the next separator and pushes the next
    piece; the last piece is pushed when no separator is left. *)
Lemma split_loop_on_join s sep lim xs :
  sep <> [] -> xs <> [] -> Forall (sep_free sep) xs ->
  forall fuel i acc,
  drop i s = array_join sep xs -> length xs <= S fuel ->
  (N.of_nat (length acc + length xs) <= lim)%N ->
  split_loop fuel s sep lim i acc = acc ++ xs.
Proof.
  intros Hne Hxs Hfree. induction Hfree as [|x xs Hx Hfree IH]; [done|].
  intros fuel i acc Hdrop Hfuel Hlim. destruct xs as [|y xs].
  - rewrite array_join_single in Hdrop.
    destruct fuel as [|fuel]; simpl; [by rewrite Hdrop|].
    by rewrite string_index_of_nonempty, Hdrop, sep_free_none by done.
  - destruct fuel as [|fuel]; simpl in Hfuel; [lia|]. simpl.
    rewrite array_join_cons2 in Hdrop.
    rewrite string_index_of_nonempty, Hdrop, sep_free_app by done. simpl.
    assert (substring i (i + length x) s = x) as ->.
    { unfold substring. replace (i + length x - i) with (length x) by lia.
      rewrite Hdrop. apply take_app_length. }
    rewrite decide_False by (rewrite length_app; simpl in *; lia).
    rewrite (IH ltac:(done) fuel); [by rewrite <- app_assoc| |simpl in *; lia|].
    + rewrite <- Nat.add_assoc, <- drop_drop, Hdrop, <- drop_drop.
      by rewrite !drop_app_length.
    + rewrite length_app. simpl in *. lia.
Qed.
End SplitLemmas.

(** ** Properties of [String.prototype.split] *)
Section SplitProperties.
Context {A : Type} `{EqDecision A}.
Implicit Types (s sep : list A) (xs : list (list A)).

(** Each iteration moves [i] past a separator, so once the fuel exceeds
    the number of code units left, more fuel changes nothing. *)
Lemma split_loop_fuel s sep lim :
  sep <> [] ->
  forall fuel n i acc, length s - i < fuel ->
  split_loop (fuel + n) s sep lim i acc = split_loop fuel s sep lim i acc.
Proof.
  intros Hne fuel. induction fuel as [|fuel IH]; intros n i acc Hlt; [lia|].
  simpl. destruct (string_index_of s sep i) as [j|] eqn:Hj; [|done].
  case_decide; [done|]. apply IH.
  rewrite string_index_of_nonempty in Hj by done.
  destruct (index_of sep (drop i s)) as [k|] eqn:Hk; simplify_eq/=.
  destruct (index_of_found _ _ _ Hk) as [_ Hlen]. rewrite length_drop in Hlen.
  destruct sep; simpl in *; [done | lia].
Qed.

(** [C19] [split] stops by its own exit: the fuel it is given, one
    iteration per code unit and one more, is enough. *)
Theorem split_loop_terminates s sep lim n :
  sep <> [] ->
  split_loop (S (length s) + n) s sep lim 0 [] = split_loop (S (length s)) s sep lim 0 [].
Proof. intros Hne. apply split_loop_fuel; [done | lia]. Qed.

(** With a separator and a positive limit, [split] returns at least one
    piece. *)
Theorem split_nonempty s sep lim :
  lim <> 0%N -> sep <> [] -> split s sep lim <> [].
Proof.
  intros Hlim Hsep. unfold split.
  rewrite !decide_False by done. case_decide; [done|].
  apply split_loop_nonempty.
Qed.

(** [C17] Joining the pieces with the separator gives the string back, unless
    the limit cut the pieces short. *)
Theorem join_split s sep lim :
  sep <> [] -> (N.of_nat (length (split s sep lim)) < lim)%N ->
  array_join sep (split s sep lim) = s.
Proof.
  intros Hsep Hlen. unfold split in *.
  destruct (decide (lim = 0%N)); [lia|]. rewrite decide_False in * by done.
  case_decide as Hs; [by subst|].
  rewrite split_loop_join by (done || lia). by rewrite drop_0.
Qed.

(** Splitting a join of separator-free pieces gives the pieces back. *)
Theorem split_join sep xs lim :
  sep <> [] -> xs <> [] -> Forall (sep_free sep) xs ->
  (N.of_nat (length xs) <= lim)%N ->
  split (array_join sep xs) sep lim = xs.
Proof.
  intros Hsep Hxs Hfree Hlim. unfold split.
  destruct (decide (lim = 0%N)) as [->|]; [destruct xs; simpl in *; [done | lia]|].
  rewrite decide_False by done. case_decide as Hs.
  - by rewrite (array_join_empty sep xs).
  - apply (split_loop_on_join _ _ _ xs Hsep Hxs Hfree _ 0 []); [done| |simpl; lia].
    destruct xs as [|x xs]; [done|].
    pose proof (array_join_length sep x xs).
    destruct sep; simpl in *; [done|]. nia.
Qed.
End SplitProperties.

(** ** Exceptions

    The values the handler's code can throw: the [TypeError]s and
    [RangeError]s of the language and its built-ins, and the rejections of
    the collaborators' promises (an AWS error code, or an axios failure). *)
Inductive js_error : Type :=
| TypeError (message : jsstring)
| RangeError (message : jsstring)
| ServiceError (code : jsstring) (message : jsstring).

(** ** Witnesses *)

Lemma join_split_witness :
  array_join (lit " e ") (split (lit "Gato e Cachorro") (lit " e ") max_uint32) =
    lit "Gato e Cachorro".
Proof. apply join_split; [done | by vm_compute]. Defined.

Lemma split_loop_terminates_witness :
  split_loop (S (length (lit "Gato e Cachorro")) + 7) (lit "Gato e Cachorro") (lit " e ")
    max_uint32 0 [] =
  split_loop (S (length (lit "Gato e Cachorro"))) (lit "Gato e Cachorro") (lit " e ")
    max_uint32 0 [].
Proof. apply split_loop_terminates. done. Defined.
