(* ===== verification/SplitRef.v ===== *)
(** * A reference [split] and the ECMAScript algorithm

    [split_ref] is the textbook definition of splitting a string around a
    non-empty separator [c :: cs]: the text before the first occurrence,
    then the split of the text after it; no occurrence gives the string
    itself.  It recurses on a suffix of the string, not a subterm, so it
    is written with Equations by well-founded recursion on the length.

    The theorem: the specification's loop [split] (ECMAScript's
    [String.prototype.split], lines 47 of [src/handler.js] through
    [js_split]) computes [split_ref] whenever the limit is above the
    number of pieces, in particular for [js_split] on every string with
    fewer than [2^32 - 1] pieces. *)

From stdpp Require Import base list.
From Stdlib Require Import ZArith.
From Equations Require Import Equations.
From S2P Require Import Prelude JsString.

(** The value of an expression with the equation that names it, so that
    a [with] clause remembers what it matched. *)
Definition inspect {A} (a : A) : {b | a = b} := exist _ a eq_refl.

Equations? split_ref (c : code_unit) (cs : jsstring) (t : jsstring) : list jsstring
    by wf (length t) lt :=
  split_ref c cs t with inspect (index_of (c :: cs) t) => {
    | exist _ (Some k) Hk => take k t :: split_ref c cs (drop (k + S (length cs)) t)
    | exist _ None Hn => [t] }.
Proof.
  destruct (index_of_found _ _ _ Hk) as [_ Hlen]. simpl in Hlen. rewrite length_drop. lia.
Qed.

(** The loop from index [i] with pieces [acc] already found appends the
    reference split of the rest, as long as the limit is not reached. *)
Lemma split_loop_ref c cs t :
  forall s fuel i acc lim, drop i s = t -> length t < fuel ->
  (N.of_nat (length acc + length (split_ref c cs t)) < lim)%N ->
  split_loop fuel s (c :: cs) lim i acc = acc ++ split_ref c cs t.
Proof.
  funelim (split_ref c cs t); intros s fuel i acc lim Ht Hfuel Hlim;
    destruct fuel as [|fuel]; [lia| |lia|]; simpl;
    rewrite string_index_of_nonempty, Ht by done;
    match goal with Hi : index_of _ t = _ |- _ => rewrite Hi end; simpl.
  - simpl in Hlim. rewrite decide_False by (rewrite length_app; simpl; lia).
    rewrite (H s fuel (i + k + S (length cs)) (acc ++ [substring i (i + k) s]) lim).
    + unfold substring. replace (i + k - i) with k by lia. rewrite Ht.
      by rewrite <- app_assoc.
    + rewrite <- Ht, drop_drop. f_equal. lia.
    + destruct (index_of_found _ _ _ Hk) as [_ Hlen]. simpl in Hlen.
      rewrite length_drop. lia.
    + rewrite length_app. simpl in *. lia.
  - by subst.
Qed.

(** [C18] Equivalence: with a non-empty separator and a limit above the
    number of pieces, ECMAScript's [split] is the reference split. *)
Theorem split_equiv c cs s lim :
  (N.of_nat (length (split_ref c cs s)) < lim)%N ->
  split s (c :: cs) lim = split_ref c cs s.
Proof.
  intros Hlim. unfold split.
  rewrite !decide_False by (done || lia).
  case_decide as Hs.
  - subst s. by simp split_ref.
  - by apply (split_loop_ref c cs s s (S (length s)) 0 [] lim); [|lia|].
Qed.

Lemma split_equiv_witness :
  (N.of_nat (length (split_ref 32 (lit "e ") (lit "Gato e Cachorro"))) < max_uint32)%N /\
  split (lit "Gato e Cachorro") (lit " e ") max_uint32 =
    split_ref 32 (lit "e ") (lit "Gato e Cachorro").
Proof.
  assert (H : (N.of_nat (length (split_ref 32 (lit "e ") (lit "Gato e Cachorro"))) <
               max_uint32)%N) by (vm_compute; reflexivity).
  split; [exact H | exact (split_equiv 32 (lit "e ") (lit "Gato e Cachorro") max_uint32 H)].
Defined.
