(* ===== verification/JsNumber.v ===== *)
(** * JavaScript numbers and [Number.prototype.toFixed]

    A JavaScript number is an IEEE-754 binary64 value: here a
    [SpecFloat.spec_float] (sign, positive mantissa [m], exponent [e] for
    the finite value [m * 2^e]) that is valid for [prec = 53] and
    [emax = 1024].  The handler compares numbers once
    ([Confidence > 80], line 19 of [src/handler.js]) and prints them once
    ([confidence.toFixed(2)], line 57).  This file models
    - [num_lit] and [dec_lit]: number literals, rounded to the nearest
      binary64 as the parser does;
    - [js_gt]: the relational operator [>] (false when either side is
      NaN);
    - [toFixed]: [Number.prototype.toFixed(fractionDigits)] on the
      ECMAScript algorithm: the [RangeError] on a digit count outside
      [0..100], [Number::toString] for non-finite values and for
      magnitudes of at least [10^21], the sign, the integer [n] closest to
      [x * 10^f] (the larger one on a tie), its decimal digits, padded with
      zeros and cut around ['.'].
    The theorems: [n] is the closest integer with ties to the larger one;
    the result has exactly [f] digits after the point, and reading its
    digits back gives [n]. *)

From stdpp Require Import base list.
From Stdlib Require Import ZArith QArith Floats.SpecFloat.
From Stdlib Require DecimalN.
From S2P Require Import Prelude JsString.
Local Close Scope Q_scope.

Abbreviation number := spec_float.

(** ** Binary64 *)
Definition prec : Z := 53.
Definition emax : Z := 1024.

Definition is_binary64 (x : number) : bool := valid_binary prec emax x.

(** The integer literal [m * 2^e], rounded to binary64. *)
Definition num_lit (m e : Z) : number := binary_normalize prec emax m e false.

(** The decimal literal [digits / 10^k]: the correctly rounded quotient of
    two exact integers is the binary64 nearest to the literal's value, which
    is what the parser returns. *)
Definition dec_lit (digits : Z) (k : nat) : number :=
  SFdiv prec emax (num_lit digits 0) (num_lit (10 ^ Z.of_nat k) 0).

(** [x > y]: [IsLessThan(y, x)], false when it is undefined (a NaN). *)
Definition js_gt (x y : number) : bool := SFltb y x.

(** ** [Number.prototype.toFixed] *)

(** The decimal digits of a natural number, as code units, with no
    leading zero (and ["0"] for zero). *)
Fixpoint uint_units (d : Decimal.uint) : jsstring :=
  match d with
  | Decimal.Nil => []
  | Decimal.D0 d => 48%N :: uint_units d
  | Decimal.D1 d => 49%N :: uint_units d
  | Decimal.D2 d => 50%N :: uint_units d
  | Decimal.D3 d => 51%N :: uint_units d
  | Decimal.D4 d => 52%N :: uint_units d
  | Decimal.D5 d => 53%N :: uint_units d
  | Decimal.D6 d => 54%N :: uint_units d
  | Decimal.D7 d => 55%N :: uint_units d
  | Decimal.D8 d => 56%N :: uint_units d
  | Decimal.D9 d => 57%N :: uint_units d
  end.

Definition decimal_digits (n : N) : jsstring := uint_units (N.to_uint n).

(** Step 11.a: for [x = m * 2^e], the integer [n] for which
    [n / 10^f - x] is as close to zero as possible, the larger of two:
    [n = floor(x * 10^f + 1/2)]. *)
Definition round_scaled (f : nat) (m : positive) (e : Z) : N :=
  let num := (Z.pos m * 10 ^ Z.of_nat f)%Z in
  if (0 <=? e)%Z then Z.to_N (num * 2 ^ e)
  else Z.to_N ((2 * num + 2 ^ (- e)) / 2 ^ (1 - e)).

(** Step 11.c: [m] padded with zeros to more than [f] digits, then cut
    into [a], ["."] and the last [f] digits [b]. *)
Definition fixed_point (f : nat) (n : N) : jsstring :=
  let m := decimal_digits n in
  if decide (f = 0) then m
  else
    let '(m, k) :=
      if decide (length m <= f) then (replicate (f + 1 - length m) 48%N ++ m, f + 1)
      else (m, length m) in
    take (k - f) m ++ [46%N] ++ drop (k - f) m.

(** Step 10: [x >= 10^21] for [x = m * 2^e]. *)
Definition ge_1e21 (m : positive) (e : Z) : bool :=
  if (0 <=? e)%Z then (10 ^ 21 <=? Z.pos m * 2 ^ e)%Z
  else (10 ^ 21 * 2 ^ (- e) <=? Z.pos m)%Z.

Section ToFixed.
(** [Number::toString], which [toFixed] calls for magnitudes of at least
    [10^21]. *)
Variable number_to_string : number -> jsstring.

Definition toFixed (x : number) (fractionDigits : Z) : completion js_error jsstring :=
  let f := fractionDigits in
  if decide (f < 0 \/ 100 < f)%Z then
    Throw (RangeError (lit "toFixed() digits argument must be between 0 and 100"))
  else
    match x with
    | S754_nan => Normal (lit "NaN")
    | S754_infinity false => Normal (lit "Infinity")
    | S754_infinity true => Normal (lit "-Infinity")
    | S754_zero _ => Normal (fixed_point (Z.to_nat f) 0)
    | S754_finite s m e =>
        let sign := if s then lit "-" else [] in
        if ge_1e21 m e then Normal (sign ++ number_to_string (S754_finite false m e))
        else Normal (sign ++ fixed_point (Z.to_nat f) (round_scaled (Z.to_nat f) m e))
    end.
End ToFixed.

(** ** Reading decimal digits back *)

Definition is_digit (c : code_unit) : Prop := (48 <= c <= 57)%N.

#[global] Instance is_digit_dec c : Decision (is_digit c).
Proof. unfold is_digit. apply _. Defined.

(** The value of a string of decimal digits, most significant first. *)
Fixpoint decimal_value_acc (acc : N) (cs : jsstring) : N :=
  match cs with
  | [] => acc
  | c :: cs' => decimal_value_acc (10 * acc + (c - 48)) cs'
  end.

Definition decimal_value (cs : jsstring) : N := decimal_value_acc 0 cs.

(** The value of [x * 10^f] as a fraction [scaled_num / scaled_den] of
    integers, for [x = m * 2^e]. *)
Definition scaled_num (f : nat) (m : positive) (e : Z) : Z :=
  (Z.pos m * 10 ^ Z.of_nat f * 2 ^ Z.max e 0)%Z.

Definition scaled_den (e : Z) : Z := (2 ^ Z.max (- e) 0)%Z.

Section DecimalLemmas.
Lemma decimal_value_acc_app acc cs ds :
  decimal_value_acc acc (cs ++ ds) = decimal_value_acc (decimal_value_acc acc cs) ds.
Proof. revert acc. induction cs as [|c cs IH]; intros acc; simpl; auto. Qed.

Lemma decimal_value_acc_uint d (acc : positive) :
  decimal_value_acc (N.pos acc) (uint_units d) = N.pos (Pos.of_uint_acc d acc).
Proof.
  revert acc. induction d; intros acc; simpl; [done| ..];
    rewrite <- IHd; f_equal; lia.
Qed.

Lemma decimal_value_uint d : decimal_value (uint_units d) = N.of_uint d.
Proof.
  unfold decimal_value. induction d; simpl; try done;
    rewrite <- decimal_value_acc_uint; f_equal; lia.
Qed.

(** Reading the digits of [n] back gives [n]. *)
Lemma decimal_value_digits n : decimal_value (decimal_digits n) = n.
Proof.
  unfold decimal_digits. rewrite decimal_value_uint.
  apply DecimalN.Unsigned.of_to.
Qed.

Lemma uint_units_digits d : Forall is_digit (uint_units d).
Proof. induction d; simpl; constructor; try done; unfold is_digit; lia. Qed.

Lemma decimal_digits_nonempty n : decimal_digits n <> [].
Proof.
  unfold decimal_digits. destruct n as [|p]; [done|]. simpl.
  pose proof (DecimalPos.Unsigned.to_uint_nonnil p) as Hp.
  destruct (Pos.to_uint p); simpl; done.
Qed.

Lemma decimal_value_zeros z ds :
  decimal_value (replicate z 48%N ++ ds) = decimal_value ds.
Proof.
  unfold decimal_value. rewrite decimal_value_acc_app. f_equal.
  induction z as [|z IH]; simpl; [done|]. exact IH.
Qed.
End DecimalLemmas.

(** ** Rounding *)
Section Rounding.
Lemma scaled_den_pos e : (0 < scaled_den e)%Z.
Proof. unfold scaled_den. apply Z.pow_pos_nonneg; lia. Qed.

(** The integer [n] of step 11.a lies within one half of [x * 10^f],
    the upper half-point excluded. *)
Lemma round_scaled_bounds f m e :
  let n := Z.of_N (round_scaled f m e) in
  ((2 * n - 1) * scaled_den e <= 2 * scaled_num f m e < (2 * n + 1) * scaled_den e)%Z.
Proof.
  unfold round_scaled, scaled_num, scaled_den.
  assert (0 < 10 ^ Z.of_nat f)%Z by (apply Z.pow_pos_nonneg; lia).
  destruct (Z.leb_spec 0 e) as [He|He].
  - assert (0 < 2 ^ e)%Z by (apply Z.pow_pos_nonneg; lia).
    rewrite (Z.max_l e 0), (Z.max_r (- e) 0), Z2N.id by nia. simpl. nia.
  - rewrite (Z.max_r e 0), (Z.max_l (- e) 0) by lia. rewrite Z.mul_1_r.
    set (P := (2 ^ (- e))%Z). set (y := (Z.pos m * 10 ^ Z.of_nat f)%Z).
    assert (0 < P)%Z by (apply Z.pow_pos_nonneg; lia).
    assert (2 ^ (1 - e) = 2 * P)%Z as ->.
    { unfold P. rewrite <- Z.pow_succ_r by lia. f_equal. lia. }
    assert (0 <= (2 * y + P) / (2 * P))%Z by (apply Z.div_pos; lia).
    rewrite Z2N.id by done.
    pose proof (Z.div_mod (2 * y + P) (2 * P) ltac:(lia)).
    pose proof (Z.mod_pos_bound (2 * y + P) (2 * P) ltac:(lia)).
    nia.
Qed.

(** An integer within one half of a fraction is the closest integer to
    it, and the larger of two equally close ones. *)
Lemma nearest_of_bounds (n n' Y D : Z) :
  (0 < D)%Z -> ((2 * n - 1) * D <= 2 * Y < (2 * n + 1) * D)%Z ->
  (Z.abs (n * D - Y) <= Z.abs (n' * D - Y))%Z /\
  (Z.abs (n * D - Y) = Z.abs (n' * D - Y) -> n' <= n)%Z.
Proof.
  intros HD [Hlo Hhi].
  destruct (Z.lt_trichotomy n' n) as [Hlt|[->|Hgt]]; [| lia |].
  - assert ((n - n') * D >= D)%Z by nia. nia.
  - assert ((n' - n) * D >= D)%Z by nia. nia.
Qed.
End Rounding.

(** ** Properties of [toFixed] *)
Section ToFixedProperties.
Variable number_to_string : number -> jsstring.

(** [C15] Step 11.a as the standard states it: [n / 10^f - x] is as close to
    zero as possible, and of two such [n] the larger one is chosen.  Both
    distances are multiplied by [10^f * scaled_den e > 0], so that
    [x * 10^f = scaled_num / scaled_den] is compared with integers. *)
Theorem round_scaled_closest f m e (n' : Z) :
  let n := Z.of_N (round_scaled f m e) in
  (Z.abs (n * scaled_den e - scaled_num f m e)
     <= Z.abs (n' * scaled_den e - scaled_num f m e))%Z /\
  (Z.abs (n * scaled_den e - scaled_num f m e)
     = Z.abs (n' * scaled_den e - scaled_num f m e) -> n' <= n)%Z.
Proof. apply nearest_of_bounds; [apply scaled_den_pos | apply round_scaled_bounds]. Qed.

Lemma fixed_point_format f n :
  f <> 0 ->
  exists a b, fixed_point f n = a ++ [46%N] ++ b /\ length b = f /\ a <> [] /\
    Forall is_digit (a ++ b) /\ decimal_value (a ++ b) = n.
Proof.
  intros Hf. unfold fixed_point. rewrite decide_False by done.
  pose proof (decimal_digits_nonempty n) as Hne.
  pose proof (uint_units_digits (N.to_uint n)) as Hdig.
  fold (decimal_digits n) in Hdig.
  destruct (decimal_digits n) as [|d ds] eqn:Hm; [done|].
  case_decide as Hlen.
  - set (m := replicate (f + 1 - length (d :: ds)) 48%N ++ d :: ds).
    assert (length m = f + 1) as Hm' by (unfold m; rewrite length_app, length_replicate; lia).
    exists (take (f + 1 - f) m), (drop (f + 1 - f) m).
    rewrite take_drop, length_drop, Hm'. split_and!; [done|lia| |..].
    + replace (f + 1 - f) with 1 by lia. destruct m; simpl in *; [lia|done].
    + apply Forall_app; split; [|done]. apply Forall_replicate. unfold is_digit; lia.
    + unfold m. rewrite decimal_value_zeros, <- Hm. apply decimal_value_digits.
  - exists (take (length (d :: ds) - f) (d :: ds)), (drop (length (d :: ds) - f) (d :: ds)).
    rewrite take_drop, length_drop. split_and!; [done|lia| |done|].
    + intros Htake. apply (f_equal length) in Htake.
      rewrite length_take in Htake. simpl in *. lia.
    + rewrite <- Hm. apply decimal_value_digits.
Qed.

(** [C14] For a finite value below [10^21] in magnitude (or a zero) and
    [1 <= f <= 100], [x.toFixed(f)] is an optional minus sign, a
    non-empty run of digits, a point and exactly [f] digits; read
    without the point, the digits are the [n] of step 11.a. *)
Theorem toFixed_format x fd :
  (1 <= fd <= 100)%Z ->
  match x with
  | S754_finite _ m e => ge_1e21 m e = false
  | S754_zero _ => True
  | _ => False
  end ->
  exists sign a b,
    toFixed number_to_string x fd = Normal (sign ++ a ++ [46%N] ++ b) /\
    (sign = [] \/ sign = lit "-") /\ length b = Z.to_nat fd /\ a <> [] /\
    Forall is_digit (a ++ b) /\
    decimal_value (a ++ b) =
      match x with
      | S754_finite _ m e => round_scaled (Z.to_nat fd) m e
      | _ => 0%N
      end.
Proof.
  intros Hfd Hx. unfold toFixed. rewrite decide_False by lia.
  destruct x as [s|s| |s m e]; try done.
  - destruct (fixed_point_format (Z.to_nat fd) 0 ltac:(lia)) as (a & b & Heq & Hb).
    exists [], a, b. rewrite Heq. auto.
  - rewrite Hx.
    destruct (fixed_point_format (Z.to_nat fd) (round_scaled (Z.to_nat fd) m e) ltac:(lia))
      as (a & b & Heq & Hb).
    exists (if s then lit "-" else []), a, b. rewrite Heq.
    split; [done|]. split; [destruct s; auto|done].
Qed.

(** A digit count outside [0..100] throws a [RangeError]. *)
Lemma toFixed_range_error x fd :
  (fd < 0 \/ 100 < fd)%Z ->
  exists msg, toFixed number_to_string x fd = Throw (RangeError msg).
Proof. intros H. unfold toFixed. rewrite decide_True by done. eauto. Qed.
End ToFixedProperties.

(** ** The comparison [x > y] on exact values *)

(** [x * 2^-E] as an integer, for a zero or a finite [x] whose exponent
    is at least [E]. *)
Definition scaled_value (x : number) (E : Z) : Z :=
  match x with
  | S754_finite s m e => ((if s then Z.neg m else Z.pos m) * 2 ^ (e - E))%Z
  | _ => 0%Z
  end.

(** The exact value [(-1)^s * m * 2^e] of a finite binary64, as a
    rational. *)
Definition finite_value (s : bool) (m : positive) (e : Z) : Q :=
  let n := if s then Z.neg m else Z.pos m in
  match e with
  | Zneg p => (n # Pos.pow 2 p)%Q
  | _ => ((n * 2 ^ e)%Z # 1)%Q
  end.

(** [x] is a zero, or finite with an exponent of at least [E]. *)
Definition exponent_at_least (x : number) (E : Z) : Prop :=
  match x with
  | S754_finite _ _ e => (E <= e)%Z
  | S754_zero _ => True
  | _ => False
  end.

Section Comparison.
Lemma digits2_pos_log2 m : Z.pos (digits2_pos m) = (Z.log2 (Z.pos m) + 1)%Z.
Proof.
  assert (forall p, digits2_pos p = Pos.size p) as Hs by (induction p; simpl; congruence).
  rewrite Hs. destruct m; simpl; try rewrite Pos2Z.inj_succ; lia.
Qed.

(** A valid binary64 has its exponent fixed by its mantissa: the
    mantissa has 53 bits, or fewer at the least exponent [-1074]. *)
Lemma binary64_mantissa s m e :
  is_binary64 (S754_finite s m e) = true ->
  (-1074 <= e)%Z /\ (Z.pos m < 2 ^ 53)%Z /\ ((-1074 < e)%Z -> (2 ^ 52 <= Z.pos m)%Z).
Proof.
  unfold is_binary64, valid_binary, bounded, canonical_mantissa, fexp, emin, prec, emax.
  rewrite andb_true_iff, Z.eqb_eq, digits2_pos_log2. intros [He _].
  pose proof (Z.log2_spec (Z.pos m) ltac:(lia)) as [Hlo Hhi].
  pose proof (Z.log2_nonneg (Z.pos m)).
  split_and!; [lia| |].
  - eapply Z.lt_le_trans; [exact Hhi|]. apply Z.pow_le_mono_r; lia.
  - intros Hgt. replace (Z.log2 (Z.pos m)) with 52%Z in Hlo by lia. exact Hlo.
Qed.

(** A value with a mantissa below [2^53] is below any value with a larger
    exponent and a 53-bit mantissa. *)
Lemma scaled_lt_of_exponent_lt (ma mb : positive) (ea eb E : Z) :
  (E <= ea)%Z -> (ea < eb)%Z -> (Z.pos ma < 2 ^ 53)%Z -> (2 ^ 52 <= Z.pos mb)%Z ->
  (Z.pos ma * 2 ^ (ea - E) < Z.pos mb * 2 ^ (eb - E))%Z.
Proof.
  intros Hle Hlt Ha Hb.
  replace (eb - E)%Z with ((ea - E) + (eb - ea))%Z by lia.
  rewrite Z.pow_add_r by lia.
  assert (0 < 2 ^ (ea - E))%Z by (apply Z.pow_pos_nonneg; lia).
  assert (2 ^ 1 <= 2 ^ (eb - ea))%Z by (apply Z.pow_le_mono_r; lia).
  assert (Z.pos ma < Z.pos mb * 2 ^ (eb - ea))%Z by (simpl in *; nia).
  rewrite Z.mul_assoc, (Z.mul_comm (Z.pos mb)), <- Z.mul_assoc, (Z.mul_comm (2 ^ (ea - E))).
  apply Z.mul_lt_mono_pos_r; lia.
Qed.

(** Two positive valid binary64 values compare as their exact values: a
    smaller exponent means a smaller value. *)
Lemma compare_positive_exact m1 e1 m2 e2 E :
  is_binary64 (S754_finite false m1 e1) = true ->
  is_binary64 (S754_finite false m2 e2) = true ->
  (E <= e1)%Z -> (E <= e2)%Z ->
  match Z.compare e1 e2 with
  | Lt => Lt
  | Gt => Gt
  | Eq => Pos.compare_cont Eq m1 m2
  end = Z.compare (Z.pos m1 * 2 ^ (e1 - E)) (Z.pos m2 * 2 ^ (e2 - E)).
Proof.
  intros V1 V2 H1 H2.
  destruct (binary64_mantissa _ _ _ V1) as (L1 & B1 & N1).
  destruct (binary64_mantissa _ _ _ V2) as (L2 & B2 & N2).
  destruct (Z.compare_spec e1 e2) as [->|Hlt12|Hgt12].
  - rewrite Pos.compare_cont_spec.
    assert (0 < 2 ^ (e2 - E))%Z by (apply Z.pow_pos_nonneg; lia).
    destruct (Pos.compare_spec m1 m2) as [->|Hm|Hm]; simpl; symmetry.
    + apply Z.compare_refl.
    + apply Z.compare_lt_iff. apply Z.mul_lt_mono_pos_r; lia.
    + apply Z.compare_gt_iff. apply Z.mul_lt_mono_pos_r; lia.
  - symmetry. apply Z.compare_lt_iff. apply scaled_lt_of_exponent_lt; auto with lia.
  - symmetry. apply Z.compare_gt_iff. apply scaled_lt_of_exponent_lt; auto with lia.
Qed.
(** The order of exact values reverses on negative values. *)
Lemma compare_negative_exact m1 e1 m2 e2 E :
  is_binary64 (S754_finite true m1 e1) = true ->
  is_binary64 (S754_finite true m2 e2) = true ->
  (E <= e1)%Z -> (E <= e2)%Z ->
  match Z.compare e1 e2 with
  | Lt => Gt
  | Gt => Lt
  | Eq => CompOpp (Pos.compare_cont Eq m1 m2)
  end = Z.compare (Z.neg m1 * 2 ^ (e1 - E)) (Z.neg m2 * 2 ^ (e2 - E)).
Proof.
  intros V1 V2 H1 H2.
  transitivity (CompOpp (match Z.compare e1 e2 with
                         | Lt => Lt | Gt => Gt | Eq => Pos.compare_cont Eq m1 m2 end));
    [by destruct (Z.compare e1 e2)|].
  rewrite (compare_positive_exact m1 e1 m2 e2 E) by done.
  rewrite <- Z.compare_antisym, <- Z.compare_opp. f_equal; lia.
Qed.

Lemma compare_lt_true (a b : Z) :
  match Z.compare a b with Lt => true | _ => false end = true <-> (a < b)%Z.
Proof. rewrite <- Z.compare_lt_iff. destruct (Z.compare a b); split; congruence. Qed.

(** [SFltb] on valid binary64 zeros and finite values is the order of
    their exact values. *)
Lemma SFltb_exact x y E :
  is_binary64 x = true -> is_binary64 y = true ->
  exponent_at_least x E -> exponent_at_least y E ->
  SFltb x y = true <-> (scaled_value x E < scaled_value y E)%Z.
Proof.
  intros Vx Vy Ex Ey.
  destruct x as [sx|sx| |sx mx ex]; try done; destruct y as [sy|sy| |sy my ey]; try done;
    unfold SFltb, SFcompare, scaled_value; simpl in Ex, Ey.
  - assert (0 < 2 ^ (ey - E))%Z by (apply Z.pow_pos_nonneg; lia).
    destruct sy; split; intros; simpl in *; (done || nia).
  - assert (0 < 2 ^ (ex - E))%Z by (apply Z.pow_pos_nonneg; lia).
    destruct sx; split; intros; simpl in *; (done || nia).
  - assert (0 < 2 ^ (ex - E))%Z by (apply Z.pow_pos_nonneg; lia).
    assert (0 < 2 ^ (ey - E))%Z by (apply Z.pow_pos_nonneg; lia).
    destruct sx, sy.
    + rewrite (compare_negative_exact mx ex my ey E) by done. apply compare_lt_true.
    + split; [intros _; nia | done].
    + split; [done | nia].
    + rewrite (compare_positive_exact mx ex my ey E) by done. apply compare_lt_true.
Qed.
(** The literal [80] is [5629499534213120 * 2^-46] in binary64. *)
Lemma num_lit_80 : num_lit 80 0 = S754_finite false 5629499534213120 (-46).
Proof. vm_compute. reflexivity. Qed.

(** Against [80 * 2^-E], the scaled comparison is the rational one. *)
Lemma scaled_80_iff (n : Z) (e : Z) :
  let E := Z.min e (-46) in
  (5629499534213120 * 2 ^ (-46 - E) < n * 2 ^ (e - E))%Z <->
  (80 < match e with
        | Zneg p => (n # Pos.pow 2 p)%Q
        | _ => ((n * 2 ^ e)%Z # 1)%Q
        end)%Q.
Proof.
  intros E. unfold E, Qlt.
  destruct e as [|p|p]; cbn [Qnum Qden].
  - rewrite (Z.min_r 0 (-46)) by lia. simpl. lia.
  - rewrite (Z.min_r (Z.pos p) (-46)) by lia.
    replace (Z.pos p - -46)%Z with (Z.pos p + 46)%Z by lia.
    rewrite Z.pow_add_r by lia. simpl. nia.
  - rewrite Pos2Z.inj_pow. destruct (Z.le_gt_cases (Z.neg p) (-46)) as [Hp|Hp].
    + rewrite (Z.min_l (Z.neg p) (-46)) by lia. rewrite Z.sub_diag. simpl.
      replace (-46 - Z.neg p)%Z with (Z.pos p - 46)%Z by lia.
      assert (2 ^ Z.pos p = 2 ^ 46 * 2 ^ (Z.pos p - 46))%Z as ->
        by (rewrite <- Z.pow_add_r by lia; f_equal; lia).
      simpl. lia.
    + rewrite (Z.min_r (Z.neg p) (-46)) by lia. simpl.
      assert (0 < 2 ^ (Z.neg p - -46))%Z by (apply Z.pow_pos_nonneg; lia).
      assert (2 ^ Z.pos p * 2 ^ (Z.neg p - -46) = 2 ^ 46)%Z as Hsplit.
      { rewrite <- Z.pow_add_r by lia. f_equal. lia. }
      simpl in Hsplit. nia.
Qed.

(** The comparison [x > 80] on a valid binary64 is the comparison of its
    exact value with 80: true for [+Infinity] and the finite values above
    80, false for a NaN, [-Infinity], the zeros and the values up to 80. *)
Lemma js_gt_80_exact x :
  is_binary64 x = true ->
  js_gt x (num_lit 80 0) = true <->
  match x with
  | S754_infinity s => s = false
  | S754_finite s m e => (80 < finite_value s m e)%Q
  | _ => False
  end.
Proof.
  intros Vx. unfold js_gt. rewrite num_lit_80.
  destruct x as [s|[]| |s m e]; try (simpl; split; done || discriminate).
  rewrite (SFltb_exact _ _ (Z.min e (-46))) by (done || simpl; lia).
  apply scaled_80_iff.
Qed.
End Comparison.

(** ** Confidences in [0, 100] *)
Section Magnitudes.
Variable number_to_string : number -> jsstring.

(** A positive finite value is at most the integer [c] exactly when the
    scaled integers compare so. *)
Lemma finite_value_le_int m e (c : Z) :
  (finite_value false m e <= inject_Z c)%Q <->
  (Z.pos m * 2 ^ Z.max e 0 <= c * 2 ^ Z.max (- e) 0)%Z.
Proof.
  unfold finite_value, inject_Z, Qle. destruct e as [|p|p]; cbn [Qnum Qden Z.max Z.opp].
  - rewrite !Z.max_r, Z.pow_0_r by lia. lia.
  - rewrite (Z.max_l (Z.pos p)), (Z.max_r (Z.neg p)) by lia. simpl. lia.
  - rewrite (Z.max_r (Z.neg p)), (Z.max_l (Z.pos p)), Pos2Z.inj_pow by lia. simpl. lia.
Qed.

(** The integer printed by [toFixed(f)] for a value of at most [c] is at
    most [c * 10^f]. *)
Lemma round_scaled_le m e f (c : Z) :
  (Z.pos m * 2 ^ Z.max e 0 <= c * 2 ^ Z.max (- e) 0)%Z ->
  (Z.of_N (round_scaled f m e) <= c * 10 ^ Z.of_nat f)%Z.
Proof.
  intros Hle. pose proof (round_scaled_bounds f m e) as Hb. cbv zeta in Hb.
  pose proof (scaled_den_pos e) as Hd.
  assert (0 < 10 ^ Z.of_nat f)%Z by (apply Z.pow_pos_nonneg; lia).
  unfold scaled_num, scaled_den in *. nia.
Qed.

(** A value of at most 100 is below [10^21]: step 10 never takes the
    [ToString] branch. *)
Lemma ge_1e21_small m e :
  (Z.pos m * 2 ^ Z.max e 0 <= 100 * 2 ^ Z.max (- e) 0)%Z -> ge_1e21 m e = false.
Proof.
  unfold ge_1e21. intros Hle. destruct (Z.leb_spec 0 e).
  - rewrite Z.max_l, Z.max_r in Hle by lia. apply Z.leb_gt. lia.
  - rewrite Z.max_r, Z.max_l in Hle by lia. apply Z.leb_gt.
    assert (0 < 2 ^ (- e))%Z by (apply Z.pow_pos_nonneg; lia). lia.
Qed.

(** [fixed_point 2 n] for [n] up to [10000], checked on every [n]. *)
Lemma fixed_point_2_length n :
  (n <= 10000)%N -> 4 <= length (fixed_point 2 n) <= 6.
Proof.
  intros Hn.
  assert (Hall : forallb (fun k => (4 <=? length (fixed_point 2 (N.of_nat k)))%nat &&
                                   (length (fixed_point 2 (N.of_nat k)) <=? 6)%nat)
                   (seq 0 (N.to_nat 10001)) = true) by (vm_compute; reflexivity).
  rewrite forallb_forall in Hall.
  specialize (Hall (N.to_nat n)). rewrite N2Nat.id in Hall.
  rewrite andb_true_iff, !Nat.leb_le in Hall. apply Hall, in_seq.
  pose proof (N_nat_Z n). pose proof (N_nat_Z 10001). lia.
Qed.

(** A confidence in [0, 100] prints with [toFixed(2)] in four to six
    code units, from ["0.00"] to ["100.00"]. *)
Lemma toFixed2_length x :
  match x with
  | S754_zero _ => True
  | S754_finite false m e => (finite_value false m e <= 100)%Q
  | _ => False
  end ->
  exists s, toFixed number_to_string x 2 = Normal s /\ 4 <= length s <= 6.
Proof.
  unfold toFixed. rewrite decide_False by lia.
  destruct x as [s|[]| |[] m e]; intros Hx; try done.
  - eexists; split; [reflexivity|]. by apply fixed_point_2_length.
  - change 100%Q with (inject_Z 100) in Hx. apply finite_value_le_int in Hx.
    rewrite ge_1e21_small by done. eexists; split; [reflexivity|].
    apply fixed_point_2_length. pose proof (round_scaled_le m e 2 100 Hx) as Hn.
    change (Z.to_nat 2) with 2. change (100 * 10 ^ Z.of_nat 2)%Z with 10000%Z in Hn. lia.
Qed.
End Magnitudes.

(** ** Examples and witnesses *)

(** [toFixed(2)] on the exact binary64 value: [1.005] is stored as
    [1.00499999999999989...] and prints ["1.00"]; [0.005] is stored just
    above [0.005] and prints ["0.01"]; [95.5] prints ["95.50"], [81]
    prints ["81.00"]; [-0] prints ["0.00"] and [-0.001] prints
    ["-0.00"]. *)
Example toFixed_examples :
  let ts (x : number) : jsstring := [] in
  toFixed ts (dec_lit 1005 3) 2 = Normal (lit "1.00") /\
  toFixed ts (dec_lit 5 3) 2 = Normal (lit "0.01") /\
  toFixed ts (dec_lit 955 1) 2 = Normal (lit "95.50") /\
  toFixed ts (num_lit 81 0) 2 = Normal (lit "81.00") /\
  toFixed ts (S754_zero true) 2 = Normal (lit "0.00") /\
  toFixed ts (dec_lit (-1) 3) 2 = Normal (lit "-0.00").
Proof. vm_compute. repeat split. Qed.

Lemma toFixed_format_witness :
  exists sign a b,
    toFixed (fun _ => []) (num_lit 81 0) 2 = Normal (sign ++ a ++ [46%N] ++ b) /\
    (sign = [] \/ sign = lit "-") /\ length b = Z.to_nat 2 /\ a <> [] /\
    Forall is_digit (a ++ b) /\
    decimal_value (a ++ b) =
      match num_lit 81 0 with
      | S754_finite _ m e => round_scaled (Z.to_nat 2) m e
      | _ => 0%N
      end.
Proof. apply toFixed_format; [lia | vm_compute; reflexivity]. Defined.
