(* ===== verification/NumberToString.v ===== *)
(** * [Number::toString]

    [toFixed] (line 57 of [src/handler.js]) calls [ToString(x)] when
    [x >= 10^21] (step 10 of [Number.prototype.toFixed]); this file models
    [Number::toString(x)] (ECMA-262, 6.1.6.1.20) on binary64 values:

    - a NaN prints ["NaN"], a zero ["0"], a negative [x] ["-"] followed by
      the string of [-x], [+Infinity] ["Infinity"];
    - step 5: [n], [k], [s] are the integers with [k >= 1],
      [10^(k-1) <= s < 10^k], [F(s * 10^(n-k)) = x] and [k] as small as
      possible; among several [s], the one whose [s * 10^(n-k)] is closest
      to [x], the even one on a tie;
    - steps 6 to 10: the digits of [s] laid out as an integer, a decimal
      fraction, or in exponential notation, after [n].

    [F] is round-to-nearest, ties to even, of a positive rational to
    binary64: [round_Q] divides exactly, keeps [prec + 2] bits or more of
    the quotient with the location of the remainder, and hands them to
    the rounding kernel of [SpecFloat] ([binary_round_aux]), as the
    division of [SpecFloat] does.

    Step 5 is a search on [k = 1, 2, ...]: for a given [k], a valid [s]
    lies next to [x / 10^(n-k)] for [n] the decimal exponent of [x] or one
    of its two neighbours, and the values rounding to [x] form an
    interval around [x], so the two integers around [x / 10^(n-k)] are
    the only candidates to check.  The exact decimal expansion of [x]
    ([k] its number of digits) always satisfies the constraints, and ends
    the search. *)

From stdpp Require Import base list.
From Stdlib Require Import ZArith QArith Qabs Floats.SpecFloat.
From Stdlib Require DecimalN DecimalFacts.
From S2P Require Import Prelude JsString JsNumber.
Local Close Scope Q_scope.

#[global] Instance number_eq_dec : EqDecision number.
Proof. solve_decision. Defined.

(** ** Rounding a positive rational to binary64 *)

(** [F(num / den)] for [num, den > 0]. *)
Definition round_Q (num den : Z) : number :=
  let ex := (Z.log2 num - Z.log2 den - (prec + 2))%Z in
  let '(n', d') := if (ex <=? 0)%Z then (num * 2 ^ (- ex), den)%Z
                   else (num, den * 2 ^ ex)%Z in
  let q := (n' / d')%Z in
  let r := (n' mod d')%Z in
  binary_round_aux prec emax false q ex
    (if (r =? 0)%Z then loc_Exact else loc_Inexact (Z.compare (2 * r) d')).

(** [F(s * 10^p)]. *)
Definition decimal_to_number (s p : Z) : number :=
  if (0 <=? p)%Z then round_Q (s * 10 ^ p) 1 else round_Q s (10 ^ (- p)).

(** ** Step 5 *)
Section Step5.
(** The value [x = num / den > 0]. *)
Variables (x : number) (num den : Z).

(** The number of decimal digits of a positive integer. *)
Definition digits10 (z : Z) : nat := length (decimal_digits (Z.to_N z)).

(** [10^j <= x]. *)
Definition pow10_le (j : Z) : bool :=
  if (0 <=? j)%Z then (den * 10 ^ j <=? num)%Z else (den <=? num * 10 ^ (- j))%Z.

(** The decimal exponent: [10^(L-1) <= x < 10^L]. *)
Definition decimal_exponent : Z :=
  let j0 := (Z.of_nat (digits10 num) - Z.of_nat (digits10 den))%Z in
  if pow10_le j0 then (j0 + 1)%Z else j0.

(** [floor(x / 10^p)]. *)
Definition floor_scaled (p : Z) : Z :=
  if (0 <=? p)%Z then (num / (den * 10 ^ p))%Z else (num * 10 ^ (- p) / den)%Z.

(** The candidates [(s, n)] with [k] digits. *)
Definition candidates (k : nat) : list (Z * Z) :=
  let L := decimal_exponent in
  List.filter (fun '(s, _) => (10 ^ (Z.of_nat k - 1) <=? s)%Z && (s <? 10 ^ Z.of_nat k)%Z)
    (List.flat_map (fun n => let lo := floor_scaled (n - Z.of_nat k) in [(lo, n); ((lo + 1)%Z, n)])
       [(L - 1)%Z; L; (L + 1)%Z]).

(** [F(s * 10^(n-k)) = x]. *)
Definition valid_candidate (k : nat) (c : Z * Z) : bool :=
  bool_decide (decimal_to_number c.1 (c.2 - Z.of_nat k) = x).

(** [|s * 10^(n-k) - x|]. *)
Definition distance (k : nat) (c : Z * Z) : Q :=
  let p := (c.2 - Z.of_nat k)%Z in
  Qabs ((if (0 <=? p)%Z then inject_Z (c.1 * 10 ^ p) else c.1 # Z.to_pos (10 ^ (- p)))
        - (num # Z.to_pos den))%Q.

(** [c1] is preferred to [c2]: closer to [x], or as close and even. *)
Definition preferred (k : nat) (c1 c2 : Z * Z) : bool :=
  match Qcompare (distance k c1) (distance k c2) with
  | Lt => true
  | Eq => Z.even c1.1
  | Gt => false
  end.

Fixpoint best (k : nat) (cs : list (Z * Z)) : option (Z * Z) :=
  match cs with
  | [] => None
  | c :: cs' =>
      match best k cs' with
      | None => Some c
      | Some b => if preferred k b c then Some b else Some c
      end
  end.

(** The search on [k], from [k] for [fuel] values. *)
Fixpoint search (fuel k : nat) : option (Z * Z * nat) :=
  match fuel with
  | O => None
  | S fuel' =>
      match best k (List.filter (valid_candidate k) (candidates k)) with
      | Some (s, n) => Some (s, n, k)
      | None => search fuel' (S k)
      end
  end.
End Step5.

(** The exact decimal expansion of [m * 2^e]: [s_exact * 10^p_exact]. *)
Definition s_exact (m : positive) (e : Z) : Z :=
  if (0 <=? e)%Z then (Z.pos m * 2 ^ e)%Z else (Z.pos m * 5 ^ (- e))%Z.
Definition p_exact (e : Z) : Z := Z.min e 0.

(** Step 5 for [x = m * 2^e > 0]: [(s, n, k)]. *)
Definition to_string_digits (m : positive) (e : Z) : Z * Z * nat :=
  let x := S754_finite false m e in
  let num := (Z.pos m * 2 ^ Z.max e 0)%Z in
  let den := (2 ^ Z.max (- e) 0)%Z in
  let kx := digits10 (s_exact m e) in
  match search x num den (kx - 1) 1 with
  | Some r => r
  | None => (s_exact m e, (p_exact e + Z.of_nat kx)%Z, kx)
  end.

(** ** Steps 6 to 10 *)

(** The code units ["0"], ["."], ["e"], ["+"], ["-"]. *)
Definition zero_unit : code_unit := 48%N.
Definition point_unit : code_unit := 46%N.

(** The exponent part [e+d] or [e-d] of steps 9 and 10. *)
Definition exponent_part (n : Z) : jsstring :=
  lit "e" ++ (if (0 <=? n - 1)%Z then lit "+" else lit "-") ++
  decimal_digits (Z.to_N (Z.abs (n - 1))).

Definition layout (s n : Z) (k : nat) : jsstring :=
  let ds := decimal_digits (Z.to_N s) in
  if (Z.of_nat k <=? n)%Z && (n <=? 21)%Z then
    ds ++ replicate (Z.to_nat (n - Z.of_nat k)) zero_unit
  else if (0 <? n)%Z && (n <=? 21)%Z then
    take (Z.to_nat n) ds ++ [point_unit] ++ drop (Z.to_nat n) ds
  else if (-6 <? n)%Z && (n <=? 0)%Z then
    [zero_unit; point_unit] ++ replicate (Z.to_nat (- n)) zero_unit ++ ds
  else if decide (k = 1) then ds ++ exponent_part n
  else take 1 ds ++ [point_unit] ++ drop 1 ds ++ exponent_part n.

(** [Number::toString(x)]. *)
Definition Number_toString (x : number) : jsstring :=
  match x with
  | S754_nan => lit "NaN"
  | S754_zero _ => lit "0"
  | S754_infinity false => lit "Infinity"
  | S754_infinity true => lit "-Infinity"
  | S754_finite s m e =>
      let '(sd, n, k) := to_string_digits m e in
      (if s then lit "-" else []) ++ layout sd n k
  end.

(** ** Rounding an exactly representable value *)
Section Exactness.

Lemma iter_pos_nat {A} (f : A -> A) p x : iter_pos f p x = Nat.iter (Pos.to_nat p) f x.
Proof.
  revert x. induction p as [p IH|p IH|]; intros x; cbn [iter_pos].
  - rewrite Pos2Nat.inj_xI, !IH, <- Nat.iter_add, Nat.iter_succ_r. f_equal. lia.
  - rewrite Pos2Nat.inj_xO, !IH, <- Nat.iter_add. f_equal. lia.
  - done.
Qed.

(** Shifting [m * 2^n] right by [n] bits loses nothing. *)
Lemma shr_1_exact n m :
  Nat.iter n shr_1 {| shr_m := Z.pos m * 2 ^ Z.of_nat n; shr_r := false; shr_s := false |} =
  {| shr_m := Z.pos m; shr_r := false; shr_s := false |}.
Proof.
  induction n as [|n IH]; [simpl; by rewrite Z.mul_1_r|].
  rewrite Nat.iter_succ_r, <- IH. f_equal.
  assert (exists p, Z.pos m * 2 ^ Z.of_nat n = Z.pos p)%Z as [p Hp].
  { exists (Z.to_pos (Z.pos m * 2 ^ Z.of_nat n)).
    rewrite Z2Pos.id; [done|]. pose proof (Z.pow_pos_nonneg 2 (Z.of_nat n)). lia. }
  assert (Z.pos m * 2 ^ Z.of_nat (S n) = Z.pos (xO p))%Z as ->.
  { rewrite Nat2Z.inj_succ, Z.pow_succ_r by lia. nia. }
  by rewrite Hp.
Qed.

(** The kernel of [SpecFloat] returns [m * 2^e] when it is handed
    [m * 2^j] at exponent [e - j] with nothing lost. *)
Lemma binary_round_aux_exact m e j :
  bounded prec emax m e = true -> (0 <= j)%Z ->
  binary_round_aux prec emax false (Z.pos m * 2 ^ j) (e - j) loc_Exact =
    S754_finite false m e.
Proof.
  intros Hb Hj. unfold bounded, canonical_mantissa in Hb.
  apply andb_true_iff in Hb as [Hc He]. apply Z.eqb_eq in Hc. apply Z.leb_le in He.
  pose proof Hc as Hc0.
  change (fexp prec emax (Z.pos (digits2_pos m) + e)%Z = e) in Hc.
  change (e <= emax - prec)%Z in He.
  assert (Hd : IntDef.Z.sub e e = 0%Z) by apply Z.sub_diag.
  unfold binary_round_aux, shr_fexp, shr, shr_record_of_loc.
  assert (Zdigits2 (Z.pos m * 2 ^ j) = Z.pos (digits2_pos m) + j)%Z as ->.
  { assert (0 < 2 ^ j)%Z by (apply Z.pow_pos_nonneg; lia).
    destruct (Z.pos m * 2 ^ j)%Z as [|q|q] eqn:Hq; [lia| |lia]. simpl.
    rewrite !digits2_pos_log2, <- Hq, Z.log2_mul_pow2 by lia. lia. }
  replace (Z.pos (digits2_pos m) + j + (e - j))%Z with (Z.pos (digits2_pos m) + e)%Z by lia.
  rewrite Hc. replace (e - (e - j))%Z with j by lia.
  destruct j as [|jp|jp]; [| |lia].
  - rewrite Z.pow_0_r, Z.mul_1_r, !Z.sub_0_r.
    cbn [shr_m loc_of_shr_record round_nearest_even Zdigits2].
    rewrite Hc0, Hd. cbn beta iota zeta.
    by rewrite (proj2 (Z.leb_le _ _) He).
  - rewrite iter_pos_nat, <- (positive_nat_Z jp), !shr_1_exact.
    cbn [shr_m loc_of_shr_record round_nearest_even Zdigits2].
    replace (e - Z.of_nat (Pos.to_nat jp) + Z.of_nat (Pos.to_nat jp))%Z with e by lia.
    rewrite Hc0, Hd. cbn beta iota zeta.
    by rewrite (proj2 (Z.leb_le _ _) He).
Qed.

(** [round_Q] returns [x = m * 2^e] on any fraction equal to [x]. *)
Lemma round_Q_exact m e num den :
  bounded prec emax m e = true -> (0 < den)%Z ->
  (num * 2 ^ Z.max (- e) 0 = Z.pos m * 2 ^ Z.max e 0 * den)%Z ->
  round_Q num den = S754_finite false m e.
Proof.
  intros Hb Hden Hx.
  assert (Hm : (Z.log2 (Z.pos m) + 1 + e - prec <= e)%Z).
  { pose proof Hb as Hb'. unfold bounded, canonical_mantissa in Hb'.
    apply andb_true_iff in Hb' as [Hc _]. apply Z.eqb_eq in Hc.
    change (fexp prec emax (Z.pos (digits2_pos m) + e)%Z = e) in Hc.
    unfold fexp in Hc. rewrite digits2_pos_log2 in Hc. lia. }
  assert (0 < 2 ^ Z.max (- e) 0)%Z by (apply Z.pow_pos_nonneg; lia).
  assert (0 < 2 ^ Z.max e 0)%Z by (apply Z.pow_pos_nonneg; lia).
  assert (Hnum : (0 < num)%Z) by nia.
  (* the scale keeps at least two bits below the unit of [x] *)
  assert (Hex : (Z.log2 num - Z.log2 den - (prec + 2) <= e - 2)%Z).
  { assert (Z.log2 (num * 2 ^ Z.max (- e) 0) = Z.max (- e) 0 + Z.log2 num)%Z as H1
      by (apply Z.log2_mul_pow2; lia).
    assert (Z.log2 (Z.pos m * 2 ^ Z.max e 0) = Z.max e 0 + Z.log2 (Z.pos m))%Z as H2
      by (apply Z.log2_mul_pow2; lia).
    pose proof (Z.log2_mul_above (Z.pos m * 2 ^ Z.max e 0) den ltac:(nia) ltac:(lia)).
    rewrite <- Hx, H1, H2 in *. unfold prec in *. lia. }
  unfold round_Q. set (ex := (Z.log2 num - Z.log2 den - (prec + 2))%Z) in *.
  assert (Hq : exists d' : Z, (0 < d')%Z /\
     (if (ex <=? 0)%Z then (num * 2 ^ (- ex), den)%Z else (num, den * 2 ^ ex)%Z) =
       (Z.pos m * 2 ^ (e - ex) * d', d')%Z).
  { destruct (Z.leb_spec ex 0).
    - exists den. split; [done|]. f_equal.
      replace (- ex)%Z with (Z.max (- e) 0 + (- ex - Z.max (- e) 0))%Z by lia.
      rewrite Z.pow_add_r, Z.mul_assoc, Hx by lia.
      replace (e - ex)%Z with (Z.max e 0 + (- ex - Z.max (- e) 0))%Z by lia.
      rewrite Z.pow_add_r by lia. ring.
    - exists (den * 2 ^ ex)%Z. split; [apply Z.mul_pos_pos; [lia|apply Z.pow_pos_nonneg; lia]|].
      f_equal. rewrite Z.max_r, Z.max_l, Z.mul_1_r in Hx by lia. rewrite Hx.
      replace e with ((e - ex) + ex)%Z at 1 by lia. rewrite Z.pow_add_r by lia. ring. }
  destruct Hq as (d' & Hd' & ->). cbv beta iota.
  rewrite Z.div_mul, Z.mod_mul by lia. simpl.
  replace ex with (e - (e - ex))%Z at 2 by lia.
  apply binary_round_aux_exact; [done|lia].
Qed.
End Exactness.

(** ** Step 5 denotes [x] *)
Section Step5Properties.

(** The exact decimal expansion rounds to [x]. *)
Lemma decimal_to_number_exact m e :
  bounded prec emax m e = true ->
  decimal_to_number (s_exact m e) (p_exact e) = S754_finite false m e.
Proof.
  intros Hb. unfold decimal_to_number, s_exact, p_exact.
  destruct (Z.leb_spec 0 e).
  - rewrite Z.min_r by lia. simpl. apply round_Q_exact; [done|lia|].
    rewrite Z.max_r, Z.max_l by lia. ring.
  - rewrite Z.min_l by lia. rewrite (proj2 (Z.leb_gt 0 e)) by lia.
    apply round_Q_exact; [done|apply Z.pow_pos_nonneg; lia|].
    rewrite Z.max_l, Z.max_r by lia.
    replace (10 ^ (- e))%Z with (2 ^ (- e) * 5 ^ (- e))%Z
      by (rewrite <- Z.pow_mul_l; reflexivity). ring.
Qed.

Lemma best_In num den k cs c : best num den k cs = Some c -> In c cs.
Proof.
  induction cs as [|c' cs IH]; simpl; [done|].
  destruct (best num den k cs) as [b|]; [|intros [= ->]; by left].
  destruct (preferred _ _ _ _ _); intros [= <-]; [right; by apply IH | by left].
Qed.

(** Every result of the search has [k] digits and denotes [x]. *)
Lemma search_valid x num den fuel k s n k' :
  search x num den fuel k = Some (s, n, k') ->
  k <= k' /\ (10 ^ (Z.of_nat k' - 1) <= s < 10 ^ Z.of_nat k')%Z /\
  decimal_to_number s (n - Z.of_nat k') = x.
Proof.
  revert k. induction fuel as [|fuel IH]; intros k; simpl; [done|].
  destruct (best _ _ _ _) as [[s0 n0]|] eqn:Hb.
  - intros [= <- <- <-]. apply best_In in Hb.
    apply filter_In in Hb as [Hc Hv]. unfold valid_candidate in Hv.
    apply bool_decide_eq_true in Hv. unfold candidates in Hc.
    apply filter_In in Hc as [_ Hr]. apply andb_true_iff in Hr as [Hlo Hhi].
    apply Z.leb_le in Hlo. apply Z.ltb_lt in Hhi. split_and!; try lia; done.
  - intros H. destruct (IH (S k) H) as (? & ? & ?). split_and!; try lia; done.
Qed.
End Step5Properties.

(** ** The number of digits [decimal_digits] prints *)
Section DigitCount.

Lemma decimal_value_acc_bounds acc cs :
  Forall is_digit cs ->
  (acc * 10 ^ N.of_nat (length cs) <= decimal_value_acc acc cs <
   (acc + 1) * 10 ^ N.of_nat (length cs))%N.
Proof.
  revert acc. induction cs as [|c cs IH]; intros acc Hcs; simpl; [lia|].
  inversion Hcs as [|? ? Hc Hcs']; subst. unfold is_digit in Hc.
  destruct (IH (10 * acc + (c - 48))%N Hcs') as [Hlo Hhi].
  rewrite Nat2N.inj_succ, N.pow_succ_r'. split; nia.
Qed.

(** The decimal digits of a positive number do not start with ['0']. *)
Lemma to_uint_head (n : N) :
  (0 < n)%N -> forall u, N.to_uint n <> Decimal.D0 u.
Proof.
  intros Hn u Hu.
  pose proof (DecimalN.Unsigned.to_of (N.to_uint n)) as Hto.
  rewrite DecimalN.Unsigned.of_to in Hto. unfold Decimal.unorm in Hto.
  destruct (Decimal.nzhead (N.to_uint n)) eqn:Hz.
  { pose proof (DecimalN.Unsigned.of_to n) as Hof. rewrite Hto in Hof. simpl in Hof. lia. }
  all: rewrite Hto in Hu; by apply (DecimalFacts.nzhead_nonzero (N.to_uint n) u); rewrite Hz.
Qed.

(** The digits of a positive number start with ['1'] to ['9']. *)
Lemma decimal_digits_head (n : N) :
  (0 < n)%N -> exists c rest, decimal_digits n = c :: rest /\ (49 <= c <= 57)%N.
Proof.
  intros Hn. pose proof (to_uint_head n Hn) as Hh.
  pose proof (decimal_value_digits n) as Hv. unfold decimal_digits in *.
  destruct (N.to_uint n) as [|u|u|u|u|u|u|u|u|u|u] eqn:Hu;
    [unfold decimal_value in Hv; simpl in Hv; lia | by destruct (Hh u) | ..].
  all: eexists _, _; split; [reflexivity | lia].
Qed.

(** A positive number of [length (decimal_digits n)] digits lies between
    the powers of ten around it. *)
Lemma decimal_digits_bounds (n : N) :
  (0 < n)%N ->
  (10 ^ N.of_nat (length (decimal_digits n) - 1) <= n < 10 ^ N.of_nat (length (decimal_digits n)))%N.
Proof.
  intros Hn. destruct (decimal_digits_head n Hn) as (c & rest & Hds & Hc).
  pose proof (decimal_value_digits n) as Hv. pose proof (uint_units_digits (N.to_uint n)) as Hd.
  fold (decimal_digits n) in Hd. rewrite Hds in Hv, Hd |- *.
  inversion Hd as [|? ? _ Hrest]; subst.
  unfold decimal_value. simpl. rewrite Nat.sub_0_r.
  destruct (decimal_value_acc_bounds (c - 48) rest Hrest) as [Hlo Hhi].
  rewrite Nat2N.inj_succ, N.pow_succ_r'. replace (10 * 0 + (c - 48))%N with (c - 48)%N by lia. split; nia.
Qed.

(** A number between [10^(k-1)] and [10^k] prints with [k] digits. *)
Lemma decimal_digits_length (s : Z) (k : nat) :
  (10 ^ (Z.of_nat k - 1) <= s < 10 ^ Z.of_nat k)%Z -> 1 <= k ->
  length (decimal_digits (Z.to_N s)) = k.
Proof.
  intros [Hlo Hhi] Hk.
  assert (0 < 10 ^ (Z.of_nat k - 1))%Z by (apply Z.pow_pos_nonneg; lia).
  destruct (decimal_digits_bounds (Z.to_N s) ltac:(lia)) as [Hl Hh].
  set (l := length (decimal_digits (Z.to_N s))) in *.
  apply N2Z.inj_le in Hl. apply N2Z.inj_lt in Hh.
  rewrite N2Z.inj_pow, Z2N.id in Hl, Hh by lia. rewrite nat_N_Z in Hl, Hh.
  destruct (Nat.lt_total l k) as [Hlt|[Heq|Hgt]]; [exfalso| done | exfalso].
  - assert (10 ^ Z.of_nat l <= 10 ^ (Z.of_nat k - 1))%Z by (apply Z.pow_le_mono_r; lia). lia.
  - assert (10 ^ Z.of_nat k <= 10 ^ Z.of_nat (l - 1))%Z by (apply Z.pow_le_mono_r; lia). lia.
Qed.
End DigitCount.

(** ** Reading a decimal literal back: [StringToNumber]

    [StringToNumber] (ECMA-262, 7.1.4.1.1) on the strings without
    surrounding white space: the empty string is [+0]; an optional sign,
    then ["Infinity"] or a [StrUnsignedDecimalLiteral] (digits, an
    optional ["."] and digits, at least one digit in all, an optional
    exponent [e] or [E] with an optional sign and digits), whose
    mathematical value is rounded to binary64; anything else is a NaN.
    The hexadecimal, octal and binary forms are not read. *)

Definition is_digit_unit (c : code_unit) : bool := bool_decide (is_digit c).

(** The longest prefix of digits, and the rest. *)
Fixpoint span_digits (s : jsstring) : jsstring * jsstring :=
  match s with
  | c :: s' =>
      if is_digit_unit c then let '(ds, r) := span_digits s' in (c :: ds, r) else ([], s)
  | [] => ([], [])
  end.

(** The exponent part: [e] or [E], a sign, digits, and nothing after. *)
Definition read_exponent (r : jsstring) : option Z :=
  match r with
  | [] => Some 0%Z
  | c :: r' =>
      if bool_decide (c = 101%N \/ c = 69%N) then
        let '(sign, r'') :=
          match r' with
          | 43%N :: t => (1%Z, t)
          | 45%N :: t => ((-1)%Z, t)
          | _ => (1%Z, r')
          end in
        match span_digits r'' with
        | ((_ :: _) as ds, []) => Some (sign * Z.of_N (decimal_value ds))%Z
        | _ => None
        end
      else None
  end.

(** A [StrUnsignedDecimalLiteral] as [(s, p)], its value [s * 10^p]. *)
Definition read_decimal (str : jsstring) : option (Z * Z) :=
  let '(a, r1) := span_digits str in
  let '(b, r2) := match r1 with
                  | 46%N :: r => span_digits r
                  | _ => ([], r1)
                  end in
  match a ++ b with
  | [] => None
  | ds =>
      match read_exponent r2 with
      | Some ex => Some (Z.of_N (decimal_value ds), ex - Z.of_nat (length b))%Z
      | None => None
      end
  end.

Definition unsigned_to_number (str : jsstring) : number :=
  if decide (str = lit "Infinity") then S754_infinity false
  else match read_decimal str with
       | Some (s, p) => if (s =? 0)%Z then S754_zero false else decimal_to_number s p
       | None => S754_nan
       end.

Definition StringToNumber (str : jsstring) : number :=
  match str with
  | [] => S754_zero false
  | 45%N :: rest => SFopp (unsigned_to_number rest)
  | 43%N :: rest => unsigned_to_number rest
  | _ => unsigned_to_number str
  end.

(** ** Step 5 and its digits *)
Section DigitsSpec.

(** What step 5 returns for a valid [x = m * 2^e > 0]: a positive [s]
    printed with [k >= 1] digits, with [F(s * 10^(n-k)) = x]. *)
Lemma to_string_digits_spec m e :
  bounded prec emax m e = true ->
  let '(s, n, k) := to_string_digits m e in
  1 <= k /\ (0 < s)%Z /\ length (decimal_digits (Z.to_N s)) = k /\
  decimal_to_number s (n - Z.of_nat k) = S754_finite false m e.
Proof.
  intros Hb. unfold to_string_digits.
  destruct (search _ _ _ _ _) as [[[s n] k]|] eqn:Hs.
  - apply search_valid in Hs as (Hk & Hr & Hv).
    assert (0 < 10 ^ (Z.of_nat k - 1))%Z by (apply Z.pow_pos_nonneg; lia).
    split_and!; [lia|lia|by apply decimal_digits_length; [lia|]|done].
  - assert (0 < s_exact m e)%Z.
    { unfold s_exact. destruct (Z.leb_spec 0 e).
      - pose proof (Z.pow_pos_nonneg 2 e). lia.
      - pose proof (Z.pow_pos_nonneg 5 (- e)). lia. }
    pose proof (decimal_digits_nonempty (Z.to_N (s_exact m e))).
    split_and!; [| lia | done |].
    + unfold digits10. destruct (decimal_digits _); simpl; [done|lia].
    + replace (p_exact e + Z.of_nat (digits10 (s_exact m e)) - Z.of_nat (digits10 (s_exact m e)))%Z
        with (p_exact e) by lia.
      by apply decimal_to_number_exact.
Qed.
End DigitsSpec.

(** ** Reading back the layouts of steps 6 to 10 *)
Section ReadBack.

Lemma span_digits_app ds r :
  Forall is_digit ds ->
  match r with [] => True | c :: _ => ~ is_digit c end ->
  span_digits (ds ++ r) = (ds, r).
Proof.
  intros Hds Hr. induction Hds as [|c ds Hc Hds IH]; simpl.
  - destruct r as [|c r]; [done|]. simpl. unfold is_digit_unit.
    by rewrite bool_decide_eq_false_2.
  - unfold is_digit_unit. rewrite bool_decide_eq_true_2 by done. by rewrite IH.
Qed.

Lemma decimal_value_acc_zeros acc z :
  decimal_value_acc acc (replicate z 48%N) = (acc * 10 ^ N.of_nat z)%N.
Proof.
  revert acc. induction z as [|z IH]; intros acc; simpl; [lia|].
  rewrite IH, Nat2N.inj_succ, N.pow_succ_r'. lia.
Qed.

Lemma decimal_value_trailing_zeros ds z :
  decimal_value (ds ++ replicate z 48%N) = (decimal_value ds * 10 ^ N.of_nat z)%N.
Proof. unfold decimal_value. by rewrite decimal_value_acc_app, decimal_value_acc_zeros. Qed.

Lemma zeros_digits z : Forall is_digit (replicate z 48%N).
Proof. apply Forall_replicate. unfold is_digit. lia. Qed.

Lemma not_digit_point : ~ is_digit 46%N.
Proof. unfold is_digit. lia. Qed.

Lemma not_digit_e : ~ is_digit 101%N.
Proof. unfold is_digit. lia. Qed.

(** The exponent part of steps 9 and 10 reads back as [n - 1]. *)
Lemma read_exponent_part n : read_exponent (exponent_part n) = Some (n - 1)%Z.
Proof.
  unfold exponent_part, read_exponent. simpl.
  pose proof (decimal_digits_nonempty (Z.to_N (Z.abs (n - 1)))) as Hne.
  pose proof (uint_units_digits (N.to_uint (Z.to_N (Z.abs (n - 1))))) as Hd.
  fold (decimal_digits (Z.to_N (Z.abs (n - 1)))) in Hd.
  pose proof (decimal_value_digits (Z.to_N (Z.abs (n - 1)))) as Hv.
  set (D := decimal_digits (Z.to_N (Z.abs (n - 1)))) in *.
  assert (span_digits D = (D, [])) as Hsp.
  { rewrite <- (app_nil_r D) at 1. by apply span_digits_app. }
  destruct (Z.leb_spec 0 (n - 1)); simpl; rewrite Hsp;
    destruct D as [|c D']; try done; rewrite Hv, Z2N.id by lia; f_equal; lia.
Qed.

Lemma exponent_part_head n : exists r, exponent_part n = 101%N :: r.
Proof. by eexists. Qed.

(** Digits alone: an integer. *)
Lemma read_decimal_digits ds :
  Forall is_digit ds -> ds <> [] -> read_decimal ds = Some (Z.of_N (decimal_value ds), 0%Z).
Proof.
  intros Hds Hne. unfold read_decimal.
  rewrite <- (app_nil_r ds) at 1. rewrite span_digits_app by done.
  rewrite app_nil_r. destruct ds; [done|]. simpl. by rewrite Z.sub_0_r.
Qed.

(** Digits and an exponent. *)
Lemma read_decimal_digits_exp ds n :
  Forall is_digit ds -> ds <> [] ->
  read_decimal (ds ++ exponent_part n) = Some (Z.of_N (decimal_value ds), n - 1)%Z.
Proof.
  intros Hds Hne. unfold read_decimal. destruct (exponent_part_head n) as [r Hr].
  rewrite Hr, span_digits_app by (apply not_digit_e || done). rewrite <- Hr.
  rewrite app_nil_r. destruct ds; [done|]. cbv beta iota. rewrite read_exponent_part.
  simpl. by rewrite Z.sub_0_r.
Qed.

(** Digits, a point and digits. *)
Lemma read_decimal_point a b :
  Forall is_digit (a ++ b) -> a ++ b <> [] ->
  read_decimal (a ++ [46%N] ++ b) =
    Some (Z.of_N (decimal_value (a ++ b)), - Z.of_nat (length b))%Z.
Proof.
  intros Hd Hne. apply Forall_app in Hd as [Ha Hb]. unfold read_decimal.
  rewrite span_digits_app by (apply Ha || apply not_digit_point). simpl.
  rewrite <- (app_nil_r b) at 1. rewrite span_digits_app by done.
  destruct (a ++ b); [done|]. simpl. repeat f_equal; lia.
Qed.

(** Digits, a point, digits and an exponent. *)
Lemma read_decimal_point_exp a b n :
  Forall is_digit (a ++ b) -> a ++ b <> [] ->
  read_decimal (a ++ [46%N] ++ b ++ exponent_part n) =
    Some (Z.of_N (decimal_value (a ++ b)), n - 1 - Z.of_nat (length b))%Z.
Proof.
  intros Hd Hne. apply Forall_app in Hd as [Ha Hb]. unfold read_decimal.
  rewrite span_digits_app by (apply Ha || apply not_digit_point). simpl.
  destruct (exponent_part_head n) as [r Hr].
  rewrite Hr, span_digits_app by (apply not_digit_e || done). rewrite <- Hr.
  destruct (a ++ b); [done|]. cbv beta iota. by rewrite read_exponent_part.
Qed.

(** A string that starts with digits is not ["Infinity"]. *)
Lemma unsigned_to_number_digits ds r :
  Forall is_digit ds -> ds <> [] ->
  unsigned_to_number (ds ++ r) =
    match read_decimal (ds ++ r) with
    | Some (s, p) => if (s =? 0)%Z then S754_zero false else decimal_to_number s p
    | None => S754_nan
    end.
Proof.
  intros Hd Hne. unfold unsigned_to_number. rewrite decide_False; [done|].
  destruct ds as [|c ds]; [done|]. inversion Hd as [|? ? Hc _]; subst.
  intros [= -> _]. unfold is_digit in Hc. lia.
Qed.

(** [F(s * 10^p)] does not depend on where the zeros of [s] are written. *)
Lemma decimal_to_number_shift s p :
  (0 <= p)%Z -> decimal_to_number (s * 10 ^ p) 0 = decimal_to_number s p.
Proof.
  intros Hp. unfold decimal_to_number. simpl.
  rewrite (proj2 (Z.leb_le 0 p)) by done. by rewrite Z.mul_1_r.
Qed.

Lemma take_nonempty {A} n (l : list A) : 1 <= n -> l <> [] -> take n l <> [].
Proof. destruct n, l; simpl; done || lia. Qed.

Section Layouts.
Context (s : Z) (ds : jsstring).
Hypothesis Hd : Forall is_digit ds.
Hypothesis Hne : ds <> [].
Hypothesis Hval : Z.of_N (decimal_value ds) = s.
Hypothesis Hs : (0 < s)%Z.

Lemma Forall_take_drop j : Forall is_digit (take j ds ++ drop j ds).
Proof. by rewrite take_drop. Qed.

Lemma take_drop_nonempty j : take j ds ++ drop j ds <> [].
Proof. by rewrite take_drop. Qed.

(** Step 6: the digits and [z] zeros. *)
Lemma read_layout_integer z :
  unsigned_to_number (ds ++ replicate z zero_unit) = decimal_to_number s (Z.of_nat z).
Proof.
  rewrite unsigned_to_number_digits, read_decimal_digits by
    (done || (apply Forall_app; split; [done|apply zeros_digits]) || by destruct ds).
  rewrite decimal_value_trailing_zeros, N2Z.inj_mul, Hval, N2Z.inj_pow, nat_N_Z.
  assert (0 < 10 ^ Z.of_nat z)%Z by (apply Z.pow_pos_nonneg; lia).
  rewrite (proj2 (Z.eqb_neq _ 0)) by nia. apply decimal_to_number_shift. lia.
Qed.

(** Step 7: the first [j] digits, a point, the others. *)
Lemma read_layout_fraction j :
  1 <= j ->
  unsigned_to_number (take j ds ++ [point_unit] ++ drop j ds) =
    decimal_to_number s (- Z.of_nat (length (drop j ds))).
Proof.
  intros Hj. rewrite unsigned_to_number_digits
    by (apply Forall_take || apply take_nonempty; done).
  rewrite read_decimal_point by (apply Forall_take_drop || apply take_drop_nonempty).
  rewrite take_drop, Hval. by rewrite (proj2 (Z.eqb_neq _ 0)) by lia.
Qed.

(** Step 8: ["0."], [z] zeros, the digits. *)
Lemma read_layout_small z :
  unsigned_to_number ([zero_unit; point_unit] ++ replicate z zero_unit ++ ds) =
    decimal_to_number s (- Z.of_nat (z + length ds)).
Proof.
  change ([zero_unit; point_unit] ++ replicate z zero_unit ++ ds) with
    ([zero_unit] ++ [point_unit] ++ (replicate z zero_unit ++ ds)).
  rewrite unsigned_to_number_digits;
    [| apply Forall_singleton; unfold is_digit, zero_unit; lia | done].
  rewrite read_decimal_point.
  - change ([zero_unit] ++ replicate z zero_unit) with (replicate (S z) 48%N).
    rewrite app_assoc. change ([zero_unit] ++ replicate z zero_unit) with (replicate (S z) 48%N).
    rewrite decimal_value_zeros, Hval, length_app, length_replicate.
    by rewrite (proj2 (Z.eqb_neq _ 0)) by lia.
  - rewrite app_assoc. change ([zero_unit] ++ replicate z zero_unit) with (replicate (S z) 48%N).
    apply Forall_app; split; [apply zeros_digits|done].
  - done.
Qed.

(** Step 9: one digit and the exponent. *)
Lemma read_layout_exp n :
  unsigned_to_number (ds ++ exponent_part n) = decimal_to_number s (n - 1).
Proof.
  rewrite unsigned_to_number_digits, read_decimal_digits_exp by done.
  rewrite Hval. by rewrite (proj2 (Z.eqb_neq _ 0)) by lia.
Qed.

(** Step 10: a digit, a point, the others and the exponent. *)
Lemma read_layout_point_exp n :
  unsigned_to_number (take 1 ds ++ [point_unit] ++ drop 1 ds ++ exponent_part n) =
    decimal_to_number s (n - 1 - Z.of_nat (length (drop 1 ds))).
Proof.
  rewrite unsigned_to_number_digits by (apply Forall_take || apply take_nonempty; done).
  rewrite read_decimal_point_exp by (apply Forall_take_drop || apply take_drop_nonempty).
  rewrite take_drop, Hval. by rewrite (proj2 (Z.eqb_neq _ 0)) by lia.
Qed.
End Layouts.

(** Each layout of steps 6 to 10 reads back as [F(s * 10^(n-k))]. *)
Lemma layout_read s n k :
  (0 < s)%Z -> 1 <= k -> length (decimal_digits (Z.to_N s)) = k ->
  unsigned_to_number (layout s n k) = decimal_to_number s (n - Z.of_nat k).
Proof.
  intros Hs Hk Hlen. unfold layout.
  pose proof (uint_units_digits (N.to_uint (Z.to_N s))) as Hd.
  fold (decimal_digits (Z.to_N s)) in Hd.
  pose proof (decimal_value_digits (Z.to_N s)) as Hv.
  remember (decimal_digits (Z.to_N s)) as ds eqn:Hds.
  assert (Hne : ds <> []) by (intros ->; simpl in Hlen; lia).
  assert (Hval : Z.of_N (decimal_value ds) = s) by (rewrite Hv; lia).
  destruct (Z.leb_spec (Z.of_nat k) n), (Z.leb_spec n 21), (Z.ltb_spec 0 n),
    (Z.ltb_spec (-6) n), (Z.leb_spec n 0), (decide (k = 1)); cbn [andb];
    try (exfalso; lia).
  all: first
    [ rewrite (read_layout_integer s ds) by done; f_equal; lia
    | rewrite (read_layout_fraction s ds) by (done || lia); rewrite length_drop; f_equal; lia
    | rewrite (read_layout_small s ds) by done; f_equal; lia
    | rewrite (read_layout_exp s ds) by done; f_equal; lia
    | rewrite (read_layout_point_exp s ds) by done; rewrite length_drop; f_equal; lia ].
Qed.

(** Every layout starts with a digit. *)
Lemma layout_head s n k :
  (0 < s)%Z -> exists c r, layout s n k = c :: r /\ is_digit c.
Proof.
  intros Hs. unfold layout.
  pose proof (uint_units_digits (N.to_uint (Z.to_N s))) as Hd.
  fold (decimal_digits (Z.to_N s)) in Hd.
  destruct (decimal_digits_head (Z.to_N s) ltac:(lia)) as (c & r & Hds & Hc).
  rewrite Hds in Hd |- *. assert (is_digit c) by (by inversion Hd).
  repeat case_match; simpl; try (eexists _, _; split; [reflexivity|done]).
  - destruct (Z.to_nat n) as [|j] eqn:Hj; [exfalso|simpl; eexists _, _; split; [reflexivity|done]].
    repeat match goal with H : _ && _ = true |- _ => apply andb_true_iff in H as [? ?] end.
    rewrite ?Z.ltb_lt in *. lia.
Qed.

Lemma StringToNumber_digit c r :
  is_digit c -> StringToNumber (c :: r) = unsigned_to_number (c :: r).
Proof. intros Hc. unfold StringToNumber. repeat case_match; simplify_eq; done || (unfold is_digit in Hc; lia). Qed.
End ReadBack.

(** ** The round trip *)

(** [C16] Round trip: reading back what [Number::toString] prints gives the
    number again, for every binary64 value except [-0], which prints
    ["0"]: NaN, the infinities, [+0], and every finite value, whose
    shortest digits and exponent (step 5) denote it exactly after
    rounding. *)
Theorem Number_toString_roundtrip x :
  is_binary64 x = true -> x <> S754_zero true ->
  StringToNumber (Number_toString x) = x.
Proof.
  intros Hx Hz. destruct x as [[]|[]| |sg m e]; try done.
  unfold Number_toString.
  pose proof (to_string_digits_spec m e Hx) as Hspec.
  destruct (to_string_digits m e) as [[s n] k].
  destruct Hspec as (Hk & Hs & Hlen & Hv).
  destruct (layout_head s n k Hs) as (c & r & Hl & Hc).
  destruct sg; simpl; rewrite Hl.
  - rewrite <- Hl, layout_read, Hv by done. reflexivity.
  - rewrite StringToNumber_digit, <- Hl, layout_read by done. exact Hv.
Qed.

Lemma Number_toString_roundtrip_witness :
  is_binary64 (num_lit (10 ^ 21) 0) = true /\ num_lit (10 ^ 21) 0 <> S754_zero true /\
  StringToNumber (Number_toString (num_lit (10 ^ 21) 0)) = num_lit (10 ^ 21) 0.
Proof.
  assert (H1 : is_binary64 (num_lit (10 ^ 21) 0) = true) by (vm_compute; reflexivity).
  assert (H2 : num_lit (10 ^ 21) 0 <> S754_zero true) by (vm_compute; discriminate).
  split; [exact H1|]. split; [exact H2|].
  exact (Number_toString_roundtrip _ H1 H2).
Defined.

(** [Number::toString] on known values: the shortest digits that
    round back ([0.1 + 0.2] needs seventeen), the integer, fraction,
    small and exponential layouts, the least subnormal and the largest
    finite value. *)
Example Number_toString_examples :
  Number_toString (SFadd prec emax (dec_lit 1 1) (dec_lit 2 1)) = lit "0.30000000000000004" /\
  Number_toString (dec_lit 3 1) = lit "0.3" /\
  Number_toString (dec_lit 123456 3) = lit "123.456" /\
  Number_toString (num_lit (2 ^ 53) 0) = lit "9007199254740992" /\
  Number_toString (dec_lit 1 6) = lit "0.000001" /\
  Number_toString (dec_lit 1 7) = lit "1e-7" /\
  Number_toString (dec_lit (-15) 1) = lit "-1.5" /\
  Number_toString (num_lit (10 ^ 21) 0) = lit "1e+21" /\
  Number_toString (S754_finite false 1 (-1074)) = lit "5e-324" /\
  Number_toString (S754_finite false (2 ^ 53 - 1) 971) = lit "1.7976931348623157e+308".
Proof. vm_compute. repeat split. Qed.

(** [toFixed(2)] at and above [10^21] prints what [Number::toString]
    prints, in exponential notation, with its sign. *)
Example toFixed_large_examples :
  toFixed Number_toString (num_lit (10 ^ 21) 0) 2 = Normal (lit "1e+21") /\
  toFixed Number_toString (num_lit (- 10 ^ 21) 0) 2 = Normal (lit "-1e+21") /\
  toFixed Number_toString (num_lit 123456789012345678901234567890 0) 2 =
    Normal (lit "1.2345678901234568e+29") /\
  toFixed Number_toString (dec_lit 9999999999999999 0) 2 = Normal (lit "10000000000000000.00").
Proof. vm_compute. repeat split. Qed.
