(* ===== verification/Services.v ===== *)
(** * The handler's collaborators and the data it exchanges with them

    The class [Handler] of [src/handler.js] receives its two AWS clients
    in its constructor (lines 6 to 9: [rekognitionService],
    [translatorService]) and imports axios' [get] (line 3).  The handler
    sees them only through the calls it makes and the shapes of their
    answers:
    - [detectLabels({ Image: { Bytes } })] resolves with an object whose
      [Labels] is an array of [{ Name, Confidence }];
    - [translateText({ SourceLanguageCode, TargetLanguageCode, Text })]
      resolves with an object whose [TranslatedText] is a string;
    - [get(url, { responseType: 'arraybuffer' })] resolves with a response
      whose [data] holds the body's bytes.
    A property that may be absent from an answer is an [option] ([None] is
    [undefined]).  A call may also reject, with a [js_error].  The record
    [HandlerDeps] is what the constructor stores; [Call] is an entry of the
    trace of external interactions ([console.log] included).  Any function
    inhabits these records, so the handler's theorems hold for every
    behaviour of the services. *)

From stdpp Require Import base list gmap.
From Stdlib Require Import ZArith Init.Byte.
From S2P Require Import Prelude JsString JsNumber.

(** Bytes of a Node [Buffer] or of an [ArrayBuffer]. *)
Abbreviation bytes := (list byte).

(** ** Rekognition [detectLabels] *)
Record ImageParam := { Bytes : bytes }.
Record DetectLabelsRequest := { Image : ImageParam }.
Record Label := { Name : jsstring; Confidence : number }.
Record DetectLabelsResponse := { Labels : option (list Label) }.

(** ** Translate [translateText] *)
Record TranslateTextRequest := {
  SourceLanguageCode : jsstring;
  TargetLanguageCode : jsstring;
  Text : jsstring
}.
Record TranslateTextResponse := { TranslatedText : option jsstring }.

(** ** axios [get] *)
Record AxiosConfig := { responseType : jsstring }.

(** With [responseType: 'arraybuffer'], axios resolves [data] with the
    body's bytes: a Node [Buffer] under its Node adapter, an [ArrayBuffer]
    under its XHR adapter. *)
Inductive ResponseData :=
| BufferData (b : bytes)
| ArrayBufferData (b : bytes).
Record AxiosResponse := { data : ResponseData }.

(** ** The Lambda event and response *)

(** [event.queryStringParameters]: [null] (no query string) or an object
    from parameter names to values. *)
Record LambdaEvent := { queryStringParameters : option (gmap jsstring jsstring) }.

Record LambdaResponse := { statusCode : Z; body : jsstring }.

(** ** What the constructor injects, and the global [get] *)
Record HandlerDeps := {
  rekognitionService_detectLabels :
    DetectLabelsRequest -> completion js_error DetectLabelsResponse;
  translatorService_translateText :
    TranslateTextRequest -> completion js_error TranslateTextResponse
}.

Abbreviation AxiosGet :=
  (option jsstring -> AxiosConfig -> completion js_error AxiosResponse).

(** ** The trace of external interactions *)
Inductive Call :=
| CallGet (url : option jsstring) (config : AxiosConfig)
| CallDetectLabels (params : DetectLabelsRequest)
| CallTranslateText (params : TranslateTextRequest)
| CallConsoleLog (tag : jsstring) (error : js_error).

(** The handler's methods are computations of the [JS] monad of the
    prelude, with exceptions [js_error] and trace entries [Call]. *)
Abbreviation HJS := (JS js_error Call).
