(* ===== verification/Handler.v ===== *)
(** * The class [Handler] of [src/handler.js]

    Each method of the class is a definition of this file, in the [JS]
    monad of the prelude (the trace of external calls and the exceptions):
    - [Buffer_from]: the call [Buffer.from(response.data, 'base64')] of
      line 33 on what axios resolves [data] with;
    - [getImageBuffer] (lines 28 to 34), [detectImageLabels] (lines 11 to
      26), [translateText] (lines 36 to 48): one awaited external call
      each, and the processing of its answer;
    - [format_loop] and [formatTranslatedText] (lines 50 to 61): the
      [for ... in] loop over the translated pieces, which reads
      [workingItems[indexText].Confidence] and throws a [TypeError] when
      [workingItems] has no element at that index;
    - [main] (lines 63 to 90): the four steps inside one [try]/[catch].
    The section variables are the collaborators: the constructor's
    [deps], axios' [get], and [Number::toString] for [toFixed]. *)

From stdpp Require Import base list gmap.
From Stdlib Require Import ZArith QArith Init.Byte Floats.SpecFloat.
From S2P Require Import Prelude JsString JsNumber Services.
Local Close Scope Q_scope.

Local Open Scope js_scope.

(** [Buffer.from(value, 'base64')] on what axios resolves [data] with.
    Node's [Buffer.from] reads its second argument as an encoding only for
    a string [value]: a [Buffer] is copied by [fromObject] and the second
    argument is not read; for an [ArrayBuffer], [fromArrayBuffer] reads it
    as a byte offset, [+'base64'] is [NaN], taken as [0], and the length
    defaults to the rest of the buffer. *)
Definition Buffer_from (value : ResponseData) (encodingOrOffset : jsstring) : bytes :=
  match value with
  | BufferData b => b
  | ArrayBufferData b => b
  end.

(** The literal [80] of line 19. *)
Definition minConfidence : number := num_lit 80 0.

(** ['\n'] (line 60) and the text before the report (line 80). *)
Definition newline : jsstring := [LF].
Definition header : jsstring := lit "A imagem tem " ++ newline.

(** The two responses of [main]. *)
Definition ok_response (report : jsstring) : LambdaResponse :=
  {| statusCode := 200; body := header ++ report |}.
Definition error_response : LambdaResponse :=
  {| statusCode := 500; body := lit "Internal server error!" |}.

(** The line printed for one label (line 57). *)
Definition report_line (confidence nameInPortuguese : jsstring) : jsstring :=
  confidence ++ lit "% de ser do tipo " ++ nameInPortuguese.

(** The filter of line 19: [({ Confidence }) => Confidence > 80]. *)
Definition confident (l : Label) : bool := js_gt (Confidence l) minConfidence.

Section Handler.
Context (deps : HandlerDeps) (get : AxiosGet) (number_to_string : number -> jsstring).

(** Lines 11 to 26. *)
Definition detectImageLabels (buffer : bytes) : HJS (jsstring * list Label) :=
  let params := {| Image := {| Bytes := buffer |} |} in
  result <- js_await (CallDetectLabels params) (rekognitionService_detectLabels deps params) ;;
  match Labels result with
  | None => js_throw (TypeError (lit "Cannot read properties of undefined (reading 'filter')"))
  | Some labels =>
      let workingItems := List.filter confident labels in
      let names := array_join (lit " and ") (List.map Name workingItems) in
      js_ret (names, workingItems)
  end.

(** Lines 28 to 34. *)
Definition getImageBuffer (imageUrl : option jsstring) : HJS bytes :=
  let config := {| responseType := lit "arraybuffer" |} in
  response <- js_await (CallGet imageUrl config) (get imageUrl config) ;;
  js_ret (Buffer_from (data response) (lit "base64")).

(** Lines 36 to 48. *)
Definition translateText (text : jsstring) : HJS (list jsstring) :=
  let params := {| SourceLanguageCode := lit "en";
                   TargetLanguageCode := lit "pt";
                   Text := text |} in
  r <- js_await (CallTranslateText params) (translatorService_translateText deps params) ;;
  match TranslatedText r with
  | None => js_throw (TypeError (lit "Cannot read properties of undefined (reading 'split')"))
  | Some translated => js_ret (js_split translated (lit " e "))
  end.

(** Lines 53 to 58: [for (const indexText in texts)] visits the indices
    of [texts] in increasing order; [texts] is walked alongside. *)
Fixpoint format_loop (texts : list jsstring) (workingItems : list Label) (indexText : nat)
    (finalFormatedText : list jsstring) : completion js_error (list jsstring) :=
  match texts with
  | [] => Normal finalFormatedText
  | nameInPortuguese :: texts' =>
      match workingItems !! indexText with
      | None =>
          Throw (TypeError (lit "Cannot read properties of undefined (reading 'Confidence')"))
      | Some item =>
          match toFixed number_to_string (Confidence item) 2 with
          | Throw e => Throw e
          | Normal confidence =>
              format_loop texts' workingItems (S indexText)
                (finalFormatedText ++ [report_line confidence nameInPortuguese])
          end
      end
  end.

(** Lines 50 to 61. *)
Definition formatTranslatedText (texts : list jsstring) (workingItems : list Label)
    : completion js_error jsstring :=
  match format_loop texts workingItems 0 [] with
  | Normal finalFormatedText => Normal (array_join newline finalFormatedText)
  | Throw e => Throw e
  end.

(** Line 65: [const { imageUrl } = event.queryStringParameters]. *)
Definition read_imageUrl (event : LambdaEvent) : HJS (option jsstring) :=
  match queryStringParameters event with
  | None =>
      js_throw (TypeError (lit "Cannot destructure property 'imageUrl' of 'event.queryStringParameters' as it is null."))
  | Some q => js_ret (q !! lit "imageUrl")
  end.

(** Lines 64 to 81: the body of the [try] block. *)
Definition main_body (event : LambdaEvent) : HJS LambdaResponse :=
  imageUrl <- read_imageUrl event ;;
  imageBuffer <- getImageBuffer imageUrl ;;
  detected <- detectImageLabels imageBuffer ;;
  translatedText <- translateText (fst detected) ;;
  formatedTranslatedText <- js_lift (formatTranslatedText translatedText (snd detected)) ;;
  js_ret (ok_response formatedTranslatedText).

(** Lines 82 to 89: the [catch] block. *)
Definition main_catch (error : js_error) : HJS LambdaResponse :=
  js_emit (CallConsoleLog (lit "Error****") error) ;;;
  js_ret error_response.

(** Lines 63 to 90. *)
Definition main (event : LambdaEvent) : HJS LambdaResponse :=
  js_try (main_body event) main_catch.
End Handler.

(** ** Formatting *)

(** The text [toFixed(2)] prints for a confidence. *)
Definition fixed2 (number_to_string : number -> jsstring) (x : number) : jsstring :=
  match toFixed number_to_string x 2 with
  | Normal s => s
  | Throw _ => []
  end.

(** The report lines for translated pieces paired with labels. *)
Definition report_lines (number_to_string : number -> jsstring)
    (texts : list jsstring) (workingItems : list Label) : list jsstring :=
  zip_with (fun t item => report_line (fixed2 number_to_string (Confidence item)) t)
    texts workingItems.

Section FormatProperties.
Context (number_to_string : number -> jsstring).

(** [toFixed(2)] never throws: [2] is a valid digit count. *)
Lemma toFixed_two x :
  toFixed number_to_string x 2 = Normal (fixed2 number_to_string x).
Proof.
  unfold fixed2, toFixed. rewrite decide_False by lia.
  destruct x as [|[]| |s m e]; try done. by destruct (ge_1e21 m e).
Qed.

Lemma format_loop_ok texts workingItems i acc :
  i + length texts <= length workingItems ->
  format_loop number_to_string texts workingItems i acc =
    Normal (acc ++ report_lines number_to_string texts (drop i workingItems)).
Proof.
  revert i acc. induction texts as [|t texts IH]; intros i acc Hlen; simpl in *.
  - by rewrite app_nil_r.
  - destruct (lookup_lt_is_Some_2 workingItems i ltac:(lia)) as [item Hitem].
    rewrite Hitem, toFixed_two, IH by lia.
    rewrite (drop_S _ _ _ Hitem). simpl. by rewrite <- app_assoc.
Qed.

Lemma format_loop_error texts workingItems i acc :
  i <= length workingItems -> length workingItems < i + length texts ->
  exists msg, format_loop number_to_string texts workingItems i acc = Throw (TypeError msg).
Proof.
  revert i acc. induction texts as [|t texts IH]; intros i acc Hi Hlen; simpl in *; [lia|].
  destruct (workingItems !! i) as [item|] eqn:Hitem; [|eauto].
  apply lookup_lt_Some in Hitem.
  rewrite toFixed_two. apply IH; lia.
Qed.
End FormatProperties.

Section FormatSpec.
Context (number_to_string : number -> jsstring).

(** [C12] [formatTranslatedText] succeeds exactly when there are no more
    translated pieces than working items: it then prints one line per
    piece, the [i]-th piece with the confidence of the [i]-th item;
    otherwise reading [.Confidence] of [undefined] throws a [TypeError]. *)
Theorem formatTranslatedText_spec texts workingItems :
  (length texts <= length workingItems ->
   formatTranslatedText number_to_string texts workingItems =
     Normal (array_join newline (report_lines number_to_string texts workingItems))) /\
  (length workingItems < length texts ->
   exists msg, formatTranslatedText number_to_string texts workingItems = Throw (TypeError msg)).
Proof.
  unfold formatTranslatedText. split; intros Hlen.
  - rewrite format_loop_ok by lia. done.
  - destruct (format_loop_error number_to_string texts workingItems 0 [])
      as [msg ->]; [lia..|]. eauto.
Qed.
End FormatSpec.

(** ** The filter on exact values *)

(** [C20] The filter of line 19 on exact values: a label whose [Confidence]
    is a valid binary64 is kept exactly when its [Confidence] is
    [+Infinity] or a finite value strictly above 80; a NaN, [-Infinity],
    a zero and every value up to 80 (80 included) are dropped. *)
Theorem confident_exact l :
  is_binary64 (Confidence l) = true ->
  confident l = true <->
  match Confidence l with
  | S754_infinity s => s = false
  | S754_finite s m e => (80 < finite_value s m e)%Q
  | _ => False
  end.
Proof. intros V. apply js_gt_80_exact, V. Qed.

Lemma confident_exact_witness :
  confident {| Name := lit "Cat"; Confidence := dec_lit 955 1 |} = true <->
  match Confidence {| Name := lit "Cat"; Confidence := dec_lit 955 1 |} with
  | S754_infinity s => s = false
  | S754_finite s m e => (80 < finite_value s m e)%Q
  | _ => False
  end.
Proof. apply confident_exact. vm_compute. reflexivity. Defined.

(** ** The length of a report line *)

(** [C21] Bounds: for a confidence in [0, 100] (a zero, or a positive
    finite value of at most 100), [toFixed(2)] prints four to six code
    units (["0.00"] to ["100.00"]), so the line of line 57 is 21 to 23
    code units longer than the translated name it ends with. *)
Theorem report_line_length number_to_string l t :
  match Confidence l with
  | S754_zero _ => True
  | S754_finite false m e => (finite_value false m e <= 100)%Q
  | _ => False
  end ->
  21 + length t <= length (report_line (fixed2 number_to_string (Confidence l)) t) <= 23 + length t.
Proof.
  intros Hx. destruct (toFixed2_length number_to_string _ Hx) as (s & Hs & Hlen).
  unfold fixed2, report_line. rewrite Hs, !length_app.
  change (length (lit "% de ser do tipo ")) with 17. lia.
Qed.

Lemma report_line_length_witness :
  21 + length (lit "Gato") <=
    length (report_line (fixed2 (fun _ => []) (Confidence {| Name := lit "Cat"; Confidence := dec_lit 955 1 |}))
              (lit "Gato")) <= 23 + length (lit "Gato").
Proof. apply report_line_length. vm_compute. intros H. discriminate H. Defined.

(** ** [main] *)
Section MainProperties.
Context (deps : HandlerDeps) (get : AxiosGet) (number_to_string : number -> jsstring).

Lemma frame_main_body event : Frame (main_body deps get number_to_string event).
Proof.
  unfold main_body, read_imageUrl, getImageBuffer, detectImageLabels, translateText.
  eauto 20 with jsmodel.
Qed.

(** The [try] block ends in [ok_response] whenever it completes. *)
Lemma main_body_ok event r d :
  main_body deps get number_to_string event [] = (Normal r, d) ->
  exists report, r = ok_response report.
Proof.
  unfold main_body, read_imageUrl, getImageBuffer, detectImageLabels, translateText.
  js_unfold. repeat case_match; intros; simplify_eq; eauto.
Qed.

(** The [catch] block: whatever the [try] block throws is logged and
    answered with the fixed 500 response; what the [try] block returns is
    returned; the trace before the request is kept. *)
Lemma main_catches event tr :
  main deps get number_to_string event tr =
    match main_body deps get number_to_string event [] with
    | (Normal r, d) => (Normal r, tr ++ d)
    | (Throw e, d) =>
        (Normal error_response, tr ++ d ++ [CallConsoleLog (lit "Error****") e])
    end.
Proof.
  unfold main, js_try. rewrite (frame_main_body event tr).
  destruct (main_body deps get number_to_string event []) as [[r|e] d]; simpl; [done|].
  js_unfold. by rewrite app_assoc.
Qed.

(** [C3] [main] never throws: it answers either status 200 with the
    header ["A imagem tem \n"] followed by a report, or exactly
    [{ statusCode: 500, body: 'Internal server error!' }]. *)
Theorem main_response event :
  exists r d, js_run (main deps get number_to_string event) = (Normal r, d) /\
    ((exists report, r = ok_response report) \/ r = error_response).
Proof.
  unfold js_run. rewrite main_catches.
  destruct (main_body deps get number_to_string event []) as [[r|e] d] eqn:Hb.
  - exists r, d. split; [done|]. left. by eapply main_body_ok.
  - eexists _, _. split; [done|]. by right.
Qed.
End MainProperties.
