(* ===== verification/HandlerSpec.v ===== *)
(** * The contract of one request, and [main] against it

    [spec_report] states what a request produces as the design describes
    it (sections 4 and 6 of the repository's specification), in the option
    monad of stdpp, with no trace and no exceptions: the query parameter,
    the image's bytes, the labels above the threshold, the translation of
    their names joined by [" and "], its pieces around [" e "], and the
    report pairing the pieces with the labels.  A request fails when a
    collaborator rejects, when an answer lacks the property the code reads,
    or when there are more pieces than labels (the code then reads
    [.Confidence] of [undefined]).  The refinement theorem says that
    [main] answers [ok_response] of the report exactly when there is one,
    and [error_response] otherwise. *)

From stdpp Require Import base list gmap.
From Stdlib Require Import ZArith Init.Byte.
From S2P Require Import Prelude JsString JsNumber Services Handler.

(** The request objects of the three calls. *)
Definition arraybuffer_config : AxiosConfig := {| responseType := lit "arraybuffer" |}.
Definition detect_params (buffer : bytes) : DetectLabelsRequest :=
  {| Image := {| Bytes := buffer |} |}.
Definition translate_params (text : jsstring) : TranslateTextRequest :=
  {| SourceLanguageCode := lit "en"; TargetLanguageCode := lit "pt"; Text := text |}.

(** A settled promise as an option. *)
Definition settled {A} (c : completion js_error A) : option A :=
  match c with
  | Normal v => Some v
  | Throw _ => None
  end.

Section Spec.
Context (deps : HandlerDeps) (get : AxiosGet) (number_to_string : number -> jsstring).

(** The labels kept by [detectImageLabels] and the text sent to
    Translate. *)
Definition spec_names (labels : list Label) : jsstring :=
  array_join (lit " and ") (List.map Name (List.filter confident labels)).

Definition spec_report (event : LambdaEvent) : option jsstring :=
  q ← queryStringParameters event;
  resp ← settled (get (q !! lit "imageUrl") arraybuffer_config);
  detected ← settled (rekognitionService_detectLabels deps
                        (detect_params (Buffer_from (data resp) (lit "base64"))));
  labels ← Labels detected;
  translated ← settled (translatorService_translateText deps
                          (translate_params (spec_names labels)));
  t ← TranslatedText translated;
  let workingItems := List.filter confident labels in
  let pieces := js_split t (lit " e ") in
  if decide (length pieces <= length workingItems)
  then Some (array_join newline (report_lines number_to_string pieces workingItems))
  else None.

(** Inversion of [spec_report]: a report comes from answers of the three
    collaborators, and is the report of the pieces of the translation. *)
Lemma spec_report_some event report :
  spec_report event = Some report ->
  exists q resp det labels tr t,
    queryStringParameters event = Some q /\
    get (q !! lit "imageUrl") arraybuffer_config = Normal resp /\
    rekognitionService_detectLabels deps
      (detect_params (Buffer_from (data resp) (lit "base64"))) = Normal det /\
    Labels det = Some labels /\
    translatorService_translateText deps (translate_params (spec_names labels)) = Normal tr /\
    TranslatedText tr = Some t /\
    length (js_split t (lit " e ")) <= length (List.filter confident labels) /\
    report = array_join newline (report_lines number_to_string (js_split t (lit " e "))
                                   (List.filter confident labels)).
Proof.
  unfold spec_report.
  destruct (queryStringParameters event) as [q|]; simpl; [|done].
  destruct (get _ _) as [resp|] eqn:?; simpl; [|done].
  destruct (rekognitionService_detectLabels _ _) as [det|] eqn:?; simpl; [|done].
  destruct (Labels det) as [labels|] eqn:?; simpl; [|done].
  destruct (translatorService_translateText _ _) as [tr|] eqn:?; simpl; [|done].
  destruct (TranslatedText tr) as [t|] eqn:?; simpl; [|done].
  case_decide; intros; simplify_eq. naive_solver.
Qed.

(** The response the contract prescribes. *)
Definition spec_response (event : LambdaEvent) : LambdaResponse :=
  match spec_report event with
  | Some report => ok_response report
  | None => error_response
  end.

(** The [try] block completes with the prescribed report when there is
    one, and throws otherwise. *)
Lemma main_body_spec event :
  match spec_report event with
  | Some report => fst (main_body deps get number_to_string event []) = Normal (ok_response report)
  | None => exists e, fst (main_body deps get number_to_string event []) = Throw e
  end.
Proof.
  unfold spec_report, main_body, read_imageUrl, getImageBuffer, detectImageLabels,
    translateText, formatTranslatedText.
  destruct (queryStringParameters event) as [q|]; js_unfold; [|eauto].
  destruct (get _ _) as [resp|e]; js_unfold; [|eauto].
  destruct (rekognitionService_detectLabels _ _) as [det|e]; js_unfold; [|eauto].
  destruct (Labels det) as [labels|]; js_unfold; [|eauto].
  destruct (translatorService_translateText _ _) as [tr|e]; js_unfold; [|eauto].
  destruct (TranslatedText tr) as [t|]; js_unfold; [|eauto].
  case_decide as Hlen.
  - by rewrite format_loop_ok by lia.
  - destruct (format_loop_error number_to_string (js_split t (lit " e "))
                (List.filter confident labels) 0 []) as [msg ->]; [lia..|]. eauto.
Qed.

(** [C1] Refinement: [main] answers exactly the response the contract
    prescribes: [ok_response] of the report when every step succeeds and
    there are no more translated pieces than confident labels, the fixed
    500 response otherwise. *)
Theorem main_refines_spec event :
  fst (js_run (main deps get number_to_string event)) = Normal (spec_response event).
Proof.
  unfold js_run, spec_response. rewrite main_catches.
  pose proof (main_body_spec event) as Hspec.
  destruct (main_body deps get number_to_string event []) as [c d] eqn:Hb.
  destruct (spec_report event) as [report|]; simpl in Hspec.
  - by subst c.
  - destruct Hspec as [e ->]. done.
Qed.
End Spec.

(** ** Runs of [main] along the pipeline *)
Section Runs.
Context (deps : HandlerDeps) (get : AxiosGet) (number_to_string : number -> jsstring).

(** The calls of a request whose three collaborators answered. *)
Definition pipeline_calls (url : option jsstring) (buffer : bytes) (names : jsstring)
    : list Call :=
  [CallGet url arraybuffer_config;
   CallDetectLabels (detect_params buffer);
   CallTranslateText (translate_params names)].

Definition error_log (e : js_error) : Call := CallConsoleLog (lit "Error****") e.

(** Runs the [try] block along the answers of the collaborators given
    by the equations in the context. *)
Ltac run_pipeline :=
  unfold main_body, read_imageUrl, getImageBuffer, detectImageLabels, translateText;
  unfold arraybuffer_config, detect_params, translate_params, spec_names in *;
  js_unfold;
  repeat (match goal with H : ?a = _ |- context [?a] => rewrite H end; js_unfold).

(** When the three collaborators answer with the properties the code
    reads, the [try] block has made the three calls and completes as
    [formatTranslatedText] does. *)
Lemma main_body_answers event q resp det labels tr t :
  queryStringParameters event = Some q ->
  get (q !! lit "imageUrl") arraybuffer_config = Normal resp ->
  rekognitionService_detectLabels deps
    (detect_params (Buffer_from (data resp) (lit "base64"))) = Normal det ->
  Labels det = Some labels ->
  translatorService_translateText deps (translate_params (spec_names labels)) = Normal tr ->
  TranslatedText tr = Some t ->
  main_body deps get number_to_string event [] =
    (match formatTranslatedText number_to_string (js_split t (lit " e "))
             (List.filter confident labels) with
     | Normal report => Normal (ok_response report)
     | Throw e => Throw e
     end,
     pipeline_calls (q !! lit "imageUrl") (Buffer_from (data resp) (lit "base64"))
       (spec_names labels)).
Proof.
  intros Hq Hget Hdet Hlab Htr Ht. run_pipeline.
  by destruct (formatTranslatedText _ _ _).
Qed.

(** No answer of Rekognition with a label above the threshold leaves a
    report: [split] yields at least one piece and there is no label to
    pair it with. *)
Lemma spec_report_no_confident event :
  (forall params det labels,
      rekognitionService_detectLabels deps params = Normal det ->
      Labels det = Some labels -> List.filter confident labels = []) ->
  spec_report deps get number_to_string event = None.
Proof.
  intros Hnone. destruct (spec_report deps get number_to_string event) as [report|] eqn:Hr;
    [|done].
  apply spec_report_some in Hr as (q & resp & det & labels & tr & t & _ & _ & Hdet & Hlab & _ & _
                                   & Hlen & _).
  rewrite (Hnone _ _ _ Hdet Hlab) in Hlen.
  destruct (js_split t (lit " e ")) eqn:Hs; simpl in Hlen; [|lia].
  exfalso. by apply (split_nonempty t (lit " e ") max_uint32).
Qed.

(** [C7] The request succeeds when every collaborator answers and the
    translation splits into no more pieces than there are confident
    labels: the three calls are made in order (the image fetch, label
    detection on the fetched bytes, translation of the confident names
    joined by [" and "] from ['en'] to ['pt']), nothing is logged, and
    the report has one line per translated piece. *)
Theorem main_success event q resp det labels tr t :
  queryStringParameters event = Some q ->
  get (q !! lit "imageUrl") arraybuffer_config = Normal resp ->
  rekognitionService_detectLabels deps
    (detect_params (Buffer_from (data resp) (lit "base64"))) = Normal det ->
  Labels det = Some labels ->
  translatorService_translateText deps (translate_params (spec_names labels)) = Normal tr ->
  TranslatedText tr = Some t ->
  length (js_split t (lit " e ")) <= length (List.filter confident labels) ->
  let lines := report_lines number_to_string (js_split t (lit " e "))
                 (List.filter confident labels) in
  js_run (main deps get number_to_string event) =
    (Normal (ok_response (array_join newline lines)),
     pipeline_calls (q !! lit "imageUrl") (Buffer_from (data resp) (lit "base64"))
       (spec_names labels)) /\
  length lines = length (js_split t (lit " e ")).
Proof.
  intros Hq Hget Hdet Hlab Htr Ht Hlen lines. unfold js_run.
  rewrite main_catches, (main_body_answers event q resp det labels tr t) by done.
  unfold formatTranslatedText. rewrite format_loop_ok by lia. split; [done|].
  unfold lines, report_lines. rewrite length_zip_with. lia.
Qed.

(** [C5] When the translation splits into more pieces than there are
    confident labels, the request fails: the loop reads [.Confidence] of
    [undefined], the [TypeError] is logged after the three calls, and
    the answer is the fixed 500 response. *)
Theorem main_more_pieces_fails event q resp det labels tr t :
  queryStringParameters event = Some q ->
  get (q !! lit "imageUrl") arraybuffer_config = Normal resp ->
  rekognitionService_detectLabels deps
    (detect_params (Buffer_from (data resp) (lit "base64"))) = Normal det ->
  Labels det = Some labels ->
  translatorService_translateText deps (translate_params (spec_names labels)) = Normal tr ->
  TranslatedText tr = Some t ->
  length (List.filter confident labels) < length (js_split t (lit " e ")) ->
  exists msg,
    js_run (main deps get number_to_string event) =
      (Normal error_response,
       pipeline_calls (q !! lit "imageUrl") (Buffer_from (data resp) (lit "base64"))
         (spec_names labels) ++ [error_log (TypeError msg)]).
Proof.
  intros Hq Hget Hdet Hlab Htr Ht Hlen. unfold js_run.
  rewrite main_catches, (main_body_answers event q resp det labels tr t) by done.
  unfold formatTranslatedText.
  destruct (format_loop_error number_to_string (js_split t (lit " e "))
              (List.filter confident labels) 0 []) as [msg ->]; [lia..|].
  by exists msg.
Qed.

(** [C6] When no label of any Rekognition answer is above the threshold,
    every request fails with the 500 response, whatever Translate
    answers: a request can never report that no label was found. *)
Theorem main_no_confident_label event :
  (forall params det labels,
      rekognitionService_detectLabels deps params = Normal det ->
      Labels det = Some labels -> List.filter confident labels = []) ->
  fst (js_run (main deps get number_to_string event)) = Normal error_response.
Proof.
  intros Hnone. unfold js_run. rewrite main_catches.
  pose proof (main_body_spec deps get number_to_string event) as Hspec.
  rewrite spec_report_no_confident in Hspec by done. destruct Hspec as [e He].
  destruct (main_body deps get number_to_string event []) as [c d]. simpl in *.
  by subst c.
Qed.

(** [C8] When label detection rejects, the request fails with the 500
    response after two calls: the image fetch and the detection; the
    translation service is never called, and the rejection is logged. *)
Theorem main_detect_rejects event q resp e :
  queryStringParameters event = Some q ->
  get (q !! lit "imageUrl") arraybuffer_config = Normal resp ->
  rekognitionService_detectLabels deps
    (detect_params (Buffer_from (data resp) (lit "base64"))) = Throw e ->
  js_run (main deps get number_to_string event) =
    (Normal error_response,
     [CallGet (q !! lit "imageUrl") arraybuffer_config;
      CallDetectLabels (detect_params (Buffer_from (data resp) (lit "base64")));
      error_log e]).
Proof.
  intros Hq Hget Hdet. unfold js_run. rewrite main_catches. by run_pipeline.
Qed.

(** [C10] When the image fetch rejects, the request fails with the 500
    response after the one call to [axios.get]: neither Rekognition nor
    Translate is called, and the rejection itself is what is logged. *)
Theorem main_get_rejects event q e :
  queryStringParameters event = Some q ->
  get (q !! lit "imageUrl") arraybuffer_config = Throw e ->
  js_run (main deps get number_to_string event) =
    (Normal error_response, [CallGet (q !! lit "imageUrl") arraybuffer_config; error_log e]).
Proof.
  intros Hq Hget. unfold js_run. rewrite main_catches. by run_pipeline.
Qed.

(** [C11] When Translate rejects, the request fails with the 500 response
    after the three calls, the translation asked for the confident
    labels' names; the rejection is logged after them and no report is
    formatted. *)
Theorem main_translate_rejects event q resp det labels e :
  queryStringParameters event = Some q ->
  get (q !! lit "imageUrl") arraybuffer_config = Normal resp ->
  rekognitionService_detectLabels deps
    (detect_params (Buffer_from (data resp) (lit "base64"))) = Normal det ->
  Labels det = Some labels ->
  translatorService_translateText deps (translate_params (spec_names labels)) = Throw e ->
  js_run (main deps get number_to_string event) =
    (Normal error_response,
     pipeline_calls (q !! lit "imageUrl") (Buffer_from (data resp) (lit "base64"))
       (spec_names labels) ++ [error_log e]).
Proof.
  intros Hq Hget Hdet Hlab Htr. unfold js_run. rewrite main_catches. by run_pipeline.
Qed.
End Runs.

(** ** Alignment of the translated pieces with the labels *)
Section Alignment.
Context (deps : HandlerDeps) (get : AxiosGet) (number_to_string : number -> jsstring).

(** [C4] When Translate translates the confident names piece by piece,
    joining the translations [ts] with [" e "] (one translation per
    confident label, none of them containing [" e "] or ending in
    [" e"]), the report pairs every confident label with its own
    translation: its [i]-th line is the confidence of the [i]-th label
    followed by the [i]-th translation. *)
Theorem main_aligned_translation event q resp det labels tr ts :
  queryStringParameters event = Some q ->
  get (q !! lit "imageUrl") arraybuffer_config = Normal resp ->
  rekognitionService_detectLabels deps
    (detect_params (Buffer_from (data resp) (lit "base64"))) = Normal det ->
  Labels det = Some labels ->
  translatorService_translateText deps (translate_params (spec_names labels)) = Normal tr ->
  TranslatedText tr = Some (array_join (lit " e ") ts) ->
  ts <> [] -> Forall (sep_free (lit " e ")) ts ->
  length ts = length (List.filter confident labels) ->
  (N.of_nat (length ts) <= max_uint32)%N ->
  let lines := report_lines number_to_string ts (List.filter confident labels) in
  fst (js_run (main deps get number_to_string event)) =
    Normal (ok_response (array_join newline lines)) /\
  forall i t item, ts !! i = Some t -> List.filter confident labels !! i = Some item ->
    lines !! i = Some (report_line (fixed2 number_to_string (Confidence item)) t).
Proof.
  intros Hq Hget Hdet Hlab Htr Ht Hne Hfree Hlen Hmax lines.
  assert (js_split (array_join (lit " e ") ts) (lit " e ") = ts) as Hsplit
    by (apply split_join; done).
  split.
  - unfold js_run. rewrite main_catches, (main_body_answers deps get number_to_string
      event q resp det labels tr _ Hq Hget Hdet Hlab Htr Ht).
    unfold formatTranslatedText. rewrite Hsplit, format_loop_ok by lia. done.
  - intros i t item Hi Hitem. unfold lines, report_lines.
    rewrite lookup_zip_with, Hi, Hitem. done.
Qed.
End Alignment.

(** ** The steps one by one *)
Section Steps.
Context (deps : HandlerDeps) (get : AxiosGet) (number_to_string : number -> jsstring).

(** [C22] [getImageBuffer] passes the fetched bytes through unchanged:
    [Buffer.from] of a [Buffer] or an [ArrayBuffer] with ['base64'] as
    second argument decodes nothing. *)
Theorem getImageBuffer_bytes url resp b tr :
  get url arraybuffer_config = Normal resp ->
  data resp = BufferData b \/ data resp = ArrayBufferData b ->
  getImageBuffer get url tr = (Normal b, tr ++ [CallGet url arraybuffer_config]).
Proof.
  intros Hget Hdata. unfold getImageBuffer, arraybuffer_config in *. js_unfold.
  rewrite Hget. js_unfold. by destruct Hdata as [-> | ->].
Qed.

(** [C23] A request with no query string ([queryStringParameters] is
    [null]) fails with the 500 response before any external call: the
    destructuring [TypeError] is the only entry of the trace. *)
Theorem main_no_query event :
  queryStringParameters event = None ->
  exists msg, js_run (main deps get number_to_string event) =
    (Normal error_response, [error_log (TypeError msg)]).
Proof.
  intros Hq. unfold js_run. rewrite main_catches.
  unfold main_body, read_imageUrl. rewrite Hq. js_unfold. eauto.
Qed.

(** [C24] The handler does not check that [imageUrl] is present: a query
    string without it makes the first call [get(undefined, ...)], and
    the request goes on as axios answers. *)
Theorem main_missing_imageUrl event q :
  queryStringParameters event = Some q -> q !! lit "imageUrl" = None ->
  exists rest, snd (js_run (main deps get number_to_string event)) =
    CallGet None arraybuffer_config :: rest.
Proof.
  intros Hq Hurl.
  assert (exists rest, snd (main_body deps get number_to_string event []) =
                         CallGet None arraybuffer_config :: rest) as [rest Hrest].
  { unfold main_body, read_imageUrl, getImageBuffer, detectImageLabels, translateText.
    rewrite Hq. js_unfold. rewrite Hurl. repeat case_match; simplify_eq/=; eauto. }
  unfold js_run. rewrite main_catches.
  destruct (main_body deps get number_to_string event []) as [[r|e] d]; simpl in *;
    subst d; eauto.
Qed.



End Steps.

(** ** The scenarios of the design, run on fixtures *)

Definition label (name : String.string) (confidence : number) : Label :=
  {| Name := lit name; Confidence := confidence |}.
Arguments label name%_string_scope confidence.

(** Collaborators that answer every call with the same labels and the same
    translation. *)
Definition fixture_deps (labels : list Label) (translated : String.string) : HandlerDeps :=
  {| rekognitionService_detectLabels := fun _ => Normal {| Labels := Some labels |};
     translatorService_translateText :=
       fun _ => Normal {| TranslatedText := Some (lit translated) |} |}.
Arguments fixture_deps labels translated%_string_scope.

(** Rekognition rejects, with the error of an image it cannot read. *)
Definition rejecting_deps : HandlerDeps :=
  {| rekognitionService_detectLabels :=
       fun _ => Throw (ServiceError (lit "InvalidImageFormatException")
                                    (lit "Request has invalid image format"));
     translatorService_translateText :=
       fun _ => Normal {| TranslatedText := Some (lit "Gato") |} |}.

(** axios rejects, as it does on a 404 answer. *)
Definition failing_get : AxiosGet :=
  fun _ _ => Throw (ServiceError (lit "ERR_BAD_REQUEST") (lit "Request failed with status code 404")).

(** Rekognition finds a cat; Translate rejects, as it does when throttled. *)
Definition translate_rejecting_deps : HandlerDeps :=
  {| rekognitionService_detectLabels :=
       fun _ => Normal {| Labels := Some [{| Name := lit "Cat"; Confidence := num_lit 90 0 |}] |};
     translatorService_translateText :=
       fun _ => Throw (ServiceError (lit "ThrottlingException") (lit "Rate exceeded")) |}.

Definition fixture_image : bytes := [x89; x50; x4e; x47].

Definition fixture_get : AxiosGet := fun _ _ => Normal {| data := BufferData fixture_image |}.


Definition fixture_url : jsstring := lit "https://example.com/cat.png".

Definition fixture_query : gmap jsstring jsstring := {[ lit "imageUrl" := fixture_url ]}.

Definition fixture_event : LambdaEvent := {| queryStringParameters := Some fixture_query |}.

Definition fixture_response : AxiosResponse := {| data := BufferData fixture_image |}.

(** [Number::toString] is not reached below [10^21]. *)
Definition fixture_to_string (x : number) : jsstring := [].

(** The first scenario of the design: of "Cat" (95.5) and "Dog" (60)
    only "Cat" is kept; Translate is asked for "Cat", answers "Gato", and
    the body is ["A imagem tem \n95.50% de ser do tipo Gato"]. *)
Example scenario_one_label :
  js_run (main (fixture_deps [label "Cat" (dec_lit 955 1); label "Dog" (num_lit 60 0)] "Gato")
            fixture_get fixture_to_string fixture_event) =
    (Normal {| statusCode := 200;
               body := lit "A imagem tem " ++ [LF] ++ lit "95.50% de ser do tipo Gato" |},
     pipeline_calls (Some fixture_url) fixture_image (lit "Cat")).
Proof. vm_compute. reflexivity. Qed.

(** The second scenario: "Cat" (90) and "Dog" (85) are both kept,
    Translate is asked for "Cat and Dog" and answers "Gato e Cachorro";
    the report has two lines, in the labels' order. *)
Example scenario_two_labels :
  fst (js_run (main (fixture_deps [label "Cat" (num_lit 90 0); label "Dog" (num_lit 85 0)]
                       "Gato e Cachorro")
                 fixture_get fixture_to_string fixture_event)) =
    Normal {| statusCode := 200;
              body := lit "A imagem tem " ++ [LF] ++ lit "90.00% de ser do tipo Gato" ++ [LF]
                      ++ lit "85.00% de ser do tipo Cachorro" |}.
Proof. vm_compute. reflexivity. Qed.

(** A single confident label whose translation contains [" e "]
    ("Black and White", translated "Preto e Branco") splits into two
    pieces for one label, and the request fails with the 500 response. *)
Example scenario_label_with_and :
  fst (js_run (main (fixture_deps [label "Black and White" (num_lit 97 0)] "Preto e Branco")
                 fixture_get fixture_to_string fixture_event)) =
    Normal error_response.
Proof. vm_compute. reflexivity. Qed.

(** ** Witnesses *)

Lemma main_success_witness :
  let labels := [label "Cat" (dec_lit 955 1); label "Dog" (num_lit 60 0)] in
  let lines := report_lines fixture_to_string (js_split (lit "Gato") (lit " e "))
                 (List.filter confident labels) in
  js_run (main (fixture_deps labels "Gato") fixture_get fixture_to_string fixture_event) =
    (Normal (ok_response (array_join newline lines)),
     pipeline_calls (Some fixture_url) fixture_image (spec_names labels)) /\
  length lines = length (js_split (lit "Gato") (lit " e ")).
Proof.
  intros labels lines.
  apply (main_success _ _ _ fixture_event fixture_query fixture_response
           {| Labels := Some labels |} labels {| TranslatedText := Some (lit "Gato") |}
           (lit "Gato"));
    first [reflexivity | vm_compute; lia].
Defined.

Lemma main_more_pieces_fails_witness :
  let labels := [label "Black and White" (num_lit 97 0)] in
  exists msg,
    js_run (main (fixture_deps labels "Preto e Branco") fixture_get fixture_to_string
              fixture_event) =
      (Normal error_response,
       pipeline_calls (Some fixture_url) fixture_image (spec_names labels)
         ++ [error_log (TypeError msg)]).
Proof.
  intros labels.
  apply (main_more_pieces_fails _ _ _ fixture_event fixture_query fixture_response
           {| Labels := Some labels |} labels {| TranslatedText := Some (lit "Preto e Branco") |}
           (lit "Preto e Branco"));
    first [reflexivity | vm_compute; lia].
Defined.

Lemma main_no_confident_label_witness :
  fst (js_run (main (fixture_deps [label "Dog" (num_lit 60 0); label "Cat" (num_lit 80 0)] "Gato")
                 fixture_get fixture_to_string fixture_event)) = Normal error_response.
Proof.
  apply main_no_confident_label. intros params det labels Hdet Hlab.
  simpl in Hdet. injection Hdet as <-. injection Hlab as <-. vm_compute. reflexivity.
Defined.

Lemma main_detect_rejects_witness :
  js_run (main rejecting_deps fixture_get fixture_to_string fixture_event) =
    (Normal error_response,
     [CallGet (Some fixture_url) arraybuffer_config;
      CallDetectLabels (detect_params fixture_image);
      error_log (ServiceError (lit "InvalidImageFormatException")
                              (lit "Request has invalid image format"))]).
Proof. apply (main_detect_rejects _ _ _ fixture_event fixture_query fixture_response); reflexivity.
Defined.

Lemma main_aligned_translation_witness :
  let labels := [label "Cat" (num_lit 90 0); label "Dog" (num_lit 85 0)] in
  let lines := report_lines fixture_to_string [lit "Gato"; lit "Cachorro"]
                 (List.filter confident labels) in
  fst (js_run (main (fixture_deps labels "Gato e Cachorro") fixture_get fixture_to_string
                 fixture_event)) = Normal (ok_response (array_join newline lines)) /\
  forall i t item, [lit "Gato"; lit "Cachorro"] !! i = Some t ->
    List.filter confident labels !! i = Some item ->
    lines !! i = Some (report_line (fixed2 fixture_to_string (Confidence item)) t).
Proof.
  intros labels lines.
  apply (main_aligned_translation _ _ _ fixture_event fixture_query fixture_response
           {| Labels := Some labels |} labels
           {| TranslatedText := Some (lit "Gato e Cachorro") |});
    first [reflexivity | done | repeat constructor | vm_compute; lia].
Defined.

Lemma getImageBuffer_bytes_witness :
  getImageBuffer fixture_get (Some fixture_url) [] =
    (Normal fixture_image, [] ++ [CallGet (Some fixture_url) arraybuffer_config]).
Proof.
  apply (getImageBuffer_bytes _ _ {| data := BufferData fixture_image |}); [reflexivity|].
  by left.
Defined.

Lemma main_no_query_witness :
  exists msg, js_run (main (fixture_deps [] "Gato") fixture_get fixture_to_string
                        {| queryStringParameters := None |}) =
    (Normal error_response, [error_log (TypeError msg)]).
Proof. apply main_no_query. reflexivity. Defined.

Lemma main_missing_imageUrl_witness :
  exists rest, snd (js_run (main (fixture_deps [] "Gato") fixture_get fixture_to_string
                  {| queryStringParameters := Some {[ lit "url" := fixture_url ]} |})) =
    CallGet None arraybuffer_config :: rest.
Proof. apply (main_missing_imageUrl _ _ _ _ {[ lit "url" := fixture_url ]}); reflexivity.
Defined.

Lemma main_get_rejects_witness :
  js_run (main (fixture_deps [] "") failing_get fixture_to_string fixture_event) =
    (Normal error_response,
     [CallGet (Some fixture_url) arraybuffer_config;
      error_log (ServiceError (lit "ERR_BAD_REQUEST") (lit "Request failed with status code 404"))]).
Proof. apply (main_get_rejects _ _ _ fixture_event fixture_query); reflexivity. Defined.

Lemma main_translate_rejects_witness :
  js_run (main translate_rejecting_deps fixture_get fixture_to_string fixture_event) =
    (Normal error_response,
     pipeline_calls (Some fixture_url) fixture_image (lit "Cat") ++
       [error_log (ServiceError (lit "ThrottlingException") (lit "Rate exceeded"))]).
Proof.
  apply (main_translate_rejects _ _ _ fixture_event fixture_query fixture_response
           {| Labels := Some [{| Name := lit "Cat"; Confidence := num_lit 90 0 |}] |}
           [{| Name := lit "Cat"; Confidence := num_lit 90 0 |}]); reflexivity.
Defined.
