(* ===== verification/RequestMachine.v ===== *)
(** * A request as a state machine

    Section 4.5 of the design describes a request as a machine: the image
    is acquired, the labels detected, the names translated, the report
    formatted and the response returned; any failure at any step goes to
    the single failure response.  [phase] is the state of that machine,
    [request_step] its transitions, each labelled with the external calls
    it makes, and [reach] the paths with the concatenation of their
    labels.  The transitions are stated on the collaborators' answers, in
    the vocabulary of the design, not on the code: a failing transition
    may log any error.

    The theorem: every run of [main] is a path of the machine from
    [Received] to [Responded] of its response, its trace being the labels
    of the path (a simulation). *)

From stdpp Require Import base list gmap.
From Stdlib Require Import ZArith Init.Byte.
From S2P Require Import Prelude JsString JsNumber Services Handler HandlerSpec.

Inductive phase : Type :=
| Received
| Fetched (buffer : bytes)
| Detected (names : jsstring) (workingItems : list Label)
| Translated (pieces : list jsstring) (workingItems : list Label)
| Responded (response : LambdaResponse).

Section Machine.
Context (deps : HandlerDeps) (get : AxiosGet) (number_to_string : number -> jsstring).
Context (event : LambdaEvent).

(** The labels of Rekognition's answer for a buffer, when it has some. *)
Definition detected_labels (buffer : bytes) : option (list Label) :=
  settled (rekognitionService_detectLabels deps (detect_params buffer)) ≫= Labels.

(** The translated text for names, when Translate answers one. *)
Definition translated_text (names : jsstring) : option jsstring :=
  settled (translatorService_translateText deps (translate_params names)) ≫= TranslatedText.

Inductive request_step : phase -> list Call -> phase -> Prop :=
| step_fetch q resp :
    queryStringParameters event = Some q ->
    get (q !! lit "imageUrl") arraybuffer_config = Normal resp ->
    request_step Received [CallGet (q !! lit "imageUrl") arraybuffer_config]
      (Fetched (Buffer_from (data resp) (lit "base64")))
| step_no_query e :
    queryStringParameters event = None ->
    request_step Received [error_log e] (Responded error_response)
| step_fetch_fails q e :
    queryStringParameters event = Some q ->
    settled (get (q !! lit "imageUrl") arraybuffer_config) = None ->
    request_step Received [CallGet (q !! lit "imageUrl") arraybuffer_config; error_log e]
      (Responded error_response)
| step_detect buffer labels :
    detected_labels buffer = Some labels ->
    request_step (Fetched buffer) [CallDetectLabels (detect_params buffer)]
      (Detected (spec_names labels) (List.filter confident labels))
| step_detect_fails buffer e :
    detected_labels buffer = None ->
    request_step (Fetched buffer) [CallDetectLabels (detect_params buffer); error_log e]
      (Responded error_response)
| step_translate names workingItems t :
    translated_text names = Some t ->
    request_step (Detected names workingItems) [CallTranslateText (translate_params names)]
      (Translated (js_split t (lit " e ")) workingItems)
| step_translate_fails names workingItems e :
    translated_text names = None ->
    request_step (Detected names workingItems)
      [CallTranslateText (translate_params names); error_log e] (Responded error_response)
| step_format pieces workingItems :
    length pieces <= length workingItems ->
    request_step (Translated pieces workingItems) []
      (Responded (ok_response (array_join newline
                                 (report_lines number_to_string pieces workingItems))))
| step_format_fails pieces workingItems e :
    length workingItems < length pieces ->
    request_step (Translated pieces workingItems) [error_log e] (Responded error_response).

(** Paths, labelled with the concatenation of their steps' labels. *)
Inductive reach : phase -> list Call -> phase -> Prop :=
| reach_refl p : reach p [] p
| reach_step p l q l' r : request_step p l q -> reach q l' r -> reach p (l ++ l') r.

Lemma reach_one p l q : request_step p l q -> reach p l q.
Proof. intros H. rewrite <- (app_nil_r l). econstructor; [done | constructor]. Qed.

End Machine.

#[export] Hint Constructors request_step : jsmodel.
#[export] Hint Resolve reach_one reach_refl : jsmodel.

Section Simulation.
Context (deps : HandlerDeps) (get : AxiosGet) (number_to_string : number -> jsstring).
Context (event : LambdaEvent).

Lemma detected_labels_answer buffer det labels :
  rekognitionService_detectLabels deps (detect_params buffer) = Normal det ->
  Labels det = Some labels -> detected_labels deps buffer = Some labels.
Proof. unfold detected_labels. intros H ?. by rewrite H. Qed.

Lemma detected_labels_undefined buffer det :
  rekognitionService_detectLabels deps (detect_params buffer) = Normal det ->
  Labels det = None -> detected_labels deps buffer = None.
Proof. unfold detected_labels. intros H ?. by rewrite H. Qed.

Lemma detected_labels_rejects buffer e :
  rekognitionService_detectLabels deps (detect_params buffer) = Throw e ->
  detected_labels deps buffer = None.
Proof. unfold detected_labels. by intros ->. Qed.

Lemma translated_text_answer names tr t :
  translatorService_translateText deps (translate_params names) = Normal tr ->
  TranslatedText tr = Some t -> translated_text deps names = Some t.
Proof. unfold translated_text. intros H ?. by rewrite H. Qed.

Lemma translated_text_undefined names tr :
  translatorService_translateText deps (translate_params names) = Normal tr ->
  TranslatedText tr = None -> translated_text deps names = None.
Proof. unfold translated_text. intros H ?. by rewrite H. Qed.

Lemma translated_text_rejects names e :
  translatorService_translateText deps (translate_params names) = Throw e ->
  translated_text deps names = None.
Proof. unfold translated_text. by intros ->. Qed.

Lemma reach_step_eq p l q l' r tr :
  request_step deps get number_to_string event p l q ->
  reach deps get number_to_string event q l' r -> tr = l ++ l' ->
  reach deps get number_to_string event p tr r.
Proof. intros ?? ->. by econstructor. Qed.

(** The path a run takes from a phase, the step chosen by the
    collaborators' answers in the context. *)
Ltac machine_path :=
  first
  [ apply reach_refl
  | eapply reach_step_eq;
      [ first
        [ eapply step_detect; eapply detected_labels_answer; eassumption
        | eapply step_detect_fails; eapply detected_labels_undefined; eassumption
        | eapply step_detect_fails; eapply detected_labels_rejects; eassumption
        | eapply step_translate; eapply translated_text_answer; eassumption
        | eapply step_translate_fails; eapply translated_text_undefined; eassumption
        | eapply step_translate_fails; eapply translated_text_rejects; eassumption
        | eapply step_format; rewrite ?drop_0; lia
        | eapply step_format_fails; rewrite ?drop_0; lia ]
      | machine_path
      | simpl; reflexivity ] ].

(** [C13] Simulation: every run of [main] goes along the machine: it
    returns a response [r] (it never throws), and its trace is the
    sequence of labels of a path from [Received] to [Responded r]. *)
Theorem main_follows_machine :
  exists r tr, js_run (main deps get number_to_string event) = (Normal r, tr) /\
    reach deps get number_to_string event Received tr (Responded r).
Proof.
  unfold js_run. rewrite main_catches.
  unfold main_body, read_imageUrl, getImageBuffer, detectImageLabels, translateText,
    formatTranslatedText.
  destruct (queryStringParameters event) as [q|] eqn:Hq; js_unfold.
  2:{ eexists _, _. split; [reflexivity|].
      eapply reach_step_eq; [by apply step_no_query | apply reach_refl | done]. }
  destruct (get _ _) as [resp|e] eqn:Hget; js_unfold.
  2:{ eexists _, _. split; [reflexivity|].
      eapply reach_step_eq; [eapply step_fetch_fails; [done | unfold arraybuffer_config; by rewrite Hget] | apply reach_refl | done]. }
  destruct (rekognitionService_detectLabels _ _) as [det|e] eqn:Hdet; js_unfold;
    [destruct (Labels det) as [labels|] eqn:Hlab; js_unfold|].
  1: destruct (translatorService_translateText _ _) as [tr|e] eqn:Htr; js_unfold;
    [destruct (TranslatedText tr) as [t|] eqn:Ht; js_unfold|].
  1: destruct (decide (length (js_split t (lit " e ")) <= length (List.filter confident labels)))
    as [Hlen|Hlen];
    [rewrite format_loop_ok by lia
    |destruct (format_loop_error number_to_string (js_split t (lit " e "))
                (List.filter confident labels) 0 []) as [msg ->]; [lia..|]].
  all: eexists _, _; split; [reflexivity|].
  all: eapply reach_step_eq; [eapply step_fetch; [done|apply Hget]|machine_path|reflexivity].
Qed.
End Simulation.
