(* ===== verification/Factory.v ===== *)
(** * The factory: the AWS clients, the handler and the exported [main]

    Lines 93 to 105 of [src/handler.js] construct the two AWS SDK clients
    ([new aws.Rekognition()], [new aws.Translate()]), the handler
    ([new Handler({ rekognitionService, translatorService })], whose
    constructor, lines 6 to 9, stores them), and export
    [handler.main.bind(handler)].

    A client is the record of the one operation the handler calls on it;
    [.promise()] turns the SDK's request into the promise the handler
    awaits, which is the [completion] of the call.  The receiver [this]
    of a method is explicit: [main_on] is the method [main] called with
    a receiver that is the handler object or [undefined] (the module is
    strict, line 1, so an unbound call has [this = undefined]), and
    [Function_bind] is [Function.prototype.bind] fixing it.

    The theorem: the exported function answers what the contract of
    [HandlerSpec.v] prescribes for the handler built on the two clients.
    The unbound call is kept in [main_on] so that the export's [bind] is
    what selects the handler as receiver. *)

From stdpp Require Import base list gmap.
From Stdlib Require Import ZArith.
From S2P Require Import Prelude JsString JsNumber Services Handler HandlerSpec.

Local Open Scope js_scope.

(** ** The clients *)

(** [new aws.Rekognition()] (line 96), seen through [detectLabels]. *)
Record RekognitionClient := {
  detectLabels : DetectLabelsRequest -> completion js_error DetectLabelsResponse
}.

(** [new aws.Translate()] (line 97), seen through [translateText]. *)
Record TranslateClient := {
  translateText : TranslateTextRequest -> completion js_error TranslateTextResponse
}.

(** Lines 6 to 9: [this.rekognitionService = rekognitionService;
    this.translatorService = translatorService]. *)
Definition new_Handler (rekognitionService : RekognitionClient)
    (translatorService : TranslateClient) : HandlerDeps :=
  {| rekognitionService_detectLabels := detectLabels rekognitionService;
     translatorService_translateText := translateText translatorService |}.

Section Receiver.
Context (get : AxiosGet) (number_to_string : number -> jsstring).

(** The method [main] (lines 63 to 90) called with receiver [this]:
    with the handler object it is [main]; with [undefined], line 65 runs
    and line 67 reads [this.getImageBuffer] of [undefined], which throws
    a [TypeError] that the [catch] block handles. *)
Definition main_on (this : option HandlerDeps) (event : LambdaEvent) : HJS LambdaResponse :=
  match this with
  | Some handler => main handler get number_to_string event
  | None =>
      js_try
        (imageUrl <- read_imageUrl event ;;
         js_throw (TypeError (lit "Cannot read properties of undefined (reading 'getImageBuffer')")))
        main_catch
  end.

(** [f.bind(thisArg)] for a method [f]: the function whose receiver is
    [thisArg]. *)
Definition Function_bind {A B} (f : option HandlerDeps -> A -> B) (thisArg : HandlerDeps)
    : A -> B :=
  fun x => f (Some thisArg) x.

(** ** Lines 93 to 105 *)
Section Factory.
Context (rekognition : RekognitionClient) (translator : TranslateClient).

(** Lines 99 to 102. *)
Definition handler : HandlerDeps := new_Handler rekognition translator.

(** Line 105: [module.exports.main = handler.main.bind(handler)]. *)
Definition module_exports_main : LambdaEvent -> HJS LambdaResponse :=
  Function_bind main_on handler.
End Factory.
End Receiver.

(** ** The exported function *)
Section Exported.
Context (get : AxiosGet) (number_to_string : number -> jsstring).
Context (rekognition : RekognitionClient) (translator : TranslateClient).

(** [C2] The exported [main] answers, for every event, exactly the
    response the contract prescribes for a handler whose Rekognition and
    Translate services are the two clients the factory constructed. *)
Theorem module_exports_main_spec event :
  fst (js_run (module_exports_main get number_to_string rekognition translator event)) =
    Normal (spec_response (new_Handler rekognition translator) get number_to_string event).
Proof.
  unfold module_exports_main, Function_bind, main_on, handler, js_run, spec_response.
  rewrite main_catches.
  pose proof (main_body_spec (new_Handler rekognition translator) get number_to_string event)
    as Hspec.
  destruct (main_body _ _ _ event []) as [c d].
  destruct (spec_report _ _ _ event); simpl in Hspec; [by subst c|].
  by destruct Hspec as [e ->].
Qed.
End Exported.
